(** * Legion Link: synchronized multi-device capture

    A shallow embedding of the Legion Link subsystem of the camera
    application: the [LegionService] singleton (services/legionService.ts),
    the remote-trigger listener and the local recording controls of
    [CameraInterface] (components/CameraInterface.tsx), the two global
    command buttons of the fleet dashboard, and the browser event loop that
    runs their timers.

    Conventions.
    - [Date.now()] readings and message timestamps are integers (milliseconds
      since the epoch); they are modelled in [Z].  All sums and differences
      taken by the code stay far below 2^53, where JavaScript numbers are
      exact.
    - A function of the source that reads the clock takes the reading as an
      argument.
    - Callbacks are function values of the application; the service only
      stores and invokes them.  The service is therefore generic in the type
      of callbacks, and an invocation is returned as an effect.
    - Each function returns the new state together with the list of effects
      it performed on its environment, in program order. *)

From Stdlib Require Import ZArith List Ascii String Bool Lia.
Import ListNotations.
Open Scope string_scope.
Open Scope list_scope.
Open Scope Z_scope.

(** ** Types (types.ts) *)

Inductive LegionRole := LEGATUS | CENTURION.

Inductive ConnectivityProtocol := WIFI | BLUETOOTH.

Inductive MsgType :=
  HANDSHAKE | SYNC | START_REC | STOP_REC | HEARTBEAT | TELEMETRY
| PREVIEW_FRAME | COMMAND.

(** [payload?: any].  The fields below are the ones some reader or writer of
    the repository touches. *)
Record Payload := mkPayload {
  p_name : option string;
  p_status : option string;
  p_lens : option string;
  p_preview : option string;
  p_delay : option Z;
  p_protocol : option ConnectivityProtocol
}.

Definition emptyPayload : Payload := mkPayload None None None None None None.

Record LegionMessage := mkMessage {
  type : MsgType;
  timestamp : Z;
  senderId : string;
  payload : option Payload
}.

Record DeviceTelemetry := mkDevice {
  id : string;
  name : string;
  role : LegionRole;
  status : string;
  currentLens : string;
  previewFrame : option string;
  lastPing : Z
}.

Definition LegionRole_eqb (a b : LegionRole) : bool :=
  match a, b with
  | LEGATUS, LEGATUS | CENTURION, CENTURION => true
  | _, _ => false
  end.

Definition MsgType_eqb (a b : MsgType) : bool :=
  match a, b with
  | HANDSHAKE, HANDSHAKE | SYNC, SYNC | START_REC, START_REC
  | STOP_REC, STOP_REC | HEARTBEAT, HEARTBEAT | TELEMETRY, TELEMETRY
  | PREVIEW_FRAME, PREVIEW_FRAME | COMMAND, COMMAND => true
  | _, _ => false
  end.

(** ** JavaScript helpers *)

(** [o?.f || d] on strings: [undefined] and the empty string are falsy. *)
Definition str_or (o : option string) (d : string) : string :=
  match o with
  | Some s => if String.eqb s "" then d else s
  | None => d
  end.

(** [msg.payload?.f]. *)
Definition payload_get {A} (f : Payload -> option A) (m : LegionMessage)
  : option A :=
  match payload m with
  | Some p => f p
  | None => None
  end.

(** [msg.payload?.delay || 0]. *)
Definition payload_delay (m : LegionMessage) : Z :=
  match payload_get p_delay m with
  | Some d => d
  | None => 0
  end.

(** A truthy optional string argument ([targetIp]). *)
Definition truthy (o : option string) : bool :=
  match o with
  | Some s => negb (String.eqb s "")
  | None => false
  end.

(** ** [Map<string, V>]

    A JavaScript [Map] iterates in insertion order, and [set] on a present
    key keeps the key's position; the entries are kept as an association list
    in that order. *)
Module JsMap.

Definition t (V : Type) := list (string * V).

Fixpoint set {V} (k : string) (v : V) (m : t V) : t V :=
  match m with
  | [] => [(k, v)]
  | (k', v') :: r =>
      if String.eqb k k' then (k, v) :: r else (k', v') :: set k v r
  end.

Fixpoint delete {V} (k : string) (m : t V) : t V :=
  match m with
  | [] => []
  | (k', v') :: r =>
      if String.eqb k k' then delete k r else (k', v') :: delete k r
  end.

Fixpoint get {V} (k : string) (m : t V) : option V :=
  match m with
  | [] => None
  | (k', v') :: r => if String.eqb k k' then Some v' else get k r
  end.

Definition keys {V} (m : t V) : list string := map fst m.

Definition values {V} (m : t V) : list V := map snd m.

(** What the [Map] constructor and [set] maintain: one entry per key. *)
Definition wf {V} (m : t V) : Prop := NoDup (keys m).

End JsMap.

(** ** The service (services/legionService.ts) *)

Inductive ReadyState := CONNECTING | OPEN | CLOSING | CLOSED.

(** The socket created by [initialize].  Its [onopen] handler closes over the
    [protocol] argument of that call, which is kept with it. *)
Record WebSocket := mkSocket {
  url : string;
  readyState : ReadyState;
  openProtocol : ConnectivityProtocol
}.

(** The handle returned by [window.setInterval]. *)
Record IntervalHandle := mkInterval { period : Z }.

Module LegionService.

Section Service.

(** The types of the message observer and of the telemetry observer. *)
Variables MsgCb TelCb : Type.

Record State := mkState {
  socket : option WebSocket;
  role : option LegionRole;
  protocol : ConnectivityProtocol;
  deviceId : string;
  syncOffset : Z;
  onMessageCallback : option MsgCb;
  onTelemetryCallback : option TelCb;
  heartbeatInterval : option IntervalHandle;
  devices : JsMap.t DeviceTelemetry
}.

Inductive Effect :=
| NewWebSocket (u : string)
| SocketSend (m : LegionMessage)
| PluginBroadcast (t : MsgType) (p : option Payload)
                  (proto : ConnectivityProtocol)
| CallMessage (cb : MsgCb) (m : LegionMessage)
| CallTelemetry (cb : TelCb) (ds : list DeviceTelemetry)
| SetTimeout (delay : Z) (loopback : LegionMessage)
| SetInterval (h : IntervalHandle)
| ClearInterval (h : IntervalHandle)
| ConsoleError.

(** The field initialisers of the class; [deviceId] is
    [crypto.randomUUID()]. *)
Definition create (uuid : string) : State :=
  mkState None None WIFI uuid 0 None None None [].

Definition set_socket (s : State) v :=
  mkState v (role s) (protocol s) (deviceId s) (syncOffset s)
          (onMessageCallback s) (onTelemetryCallback s)
          (heartbeatInterval s) (devices s).
Definition set_role (s : State) v :=
  mkState (socket s) v (protocol s) (deviceId s) (syncOffset s)
          (onMessageCallback s) (onTelemetryCallback s)
          (heartbeatInterval s) (devices s).
Definition set_protocol (s : State) v :=
  mkState (socket s) (role s) v (deviceId s) (syncOffset s)
          (onMessageCallback s) (onTelemetryCallback s)
          (heartbeatInterval s) (devices s).
Definition set_syncOffset (s : State) v :=
  mkState (socket s) (role s) (protocol s) (deviceId s) v
          (onMessageCallback s) (onTelemetryCallback s)
          (heartbeatInterval s) (devices s).
Definition set_onMessageCallback (s : State) v :=
  mkState (socket s) (role s) (protocol s) (deviceId s) (syncOffset s)
          v (onTelemetryCallback s) (heartbeatInterval s) (devices s).
Definition set_onTelemetryCallback (s : State) v :=
  mkState (socket s) (role s) (protocol s) (deviceId s) (syncOffset s)
          (onMessageCallback s) v (heartbeatInterval s) (devices s).
Definition set_heartbeatInterval (s : State) v :=
  mkState (socket s) (role s) (protocol s) (deviceId s) (syncOffset s)
          (onMessageCallback s) (onTelemetryCallback s) v (devices s).
Definition set_devices (s : State) v :=
  mkState (socket s) (role s) (protocol s) (deviceId s) (syncOffset s)
          (onMessageCallback s) (onTelemetryCallback s)
          (heartbeatInterval s) v.

(** [getSynchronizedTime() { return Date.now() - this.syncOffset; }] *)
Definition getSynchronizedTime (s : State) (now : Z) : Z :=
  now - syncOffset s.

Definition getConnectedDevices (s : State) : list DeviceTelemetry :=
  JsMap.values (devices s).

Definition getDeviceId (s : State) : string := deviceId s.

Definition getProtocol (s : State) : ConnectivityProtocol := protocol s.

(** [notifyTelemetry] *)
Definition notifyTelemetry (s : State) : list Effect :=
  match onTelemetryCallback s with
  | Some cb => [CallTelemetry cb (JsMap.values (devices s))]
  | None => []
  end.

(** The record [handleMessage] stores for a [TELEMETRY] or [HANDSHAKE]. *)
Definition deviceOf (msg : LegionMessage) (localNow : Z) : DeviceTelemetry :=
  mkDevice (senderId msg)
           (str_or (payload_get p_name msg) "Vanguard Node")
           CENTURION
           (str_or (payload_get p_status msg) "ONLINE")
           (str_or (payload_get p_lens msg) "STANDARD")
           (payload_get p_preview msg)
           localNow.

(** [handleMessage(msg)], with [localNow] the reading of [Date.now()]. *)
Definition handleMessage (s : State) (localNow : Z) (msg : LegionMessage)
  : State * list Effect :=
  if String.eqb (senderId msg) (deviceId s) then (s, [])
  else
    let s1 :=
      match type msg with
      | SYNC | HEARTBEAT => set_syncOffset s (localNow - timestamp msg)
      | _ => s
      end in
    let '(s2, e2) :=
      match type msg with
      | TELEMETRY | HANDSHAKE =>
          let s' := set_devices s1
                      (JsMap.set (senderId msg) (deviceOf msg localNow)
                                 (devices s1)) in
          (s', notifyTelemetry s')
      | _ => (s1, [])
      end in
    let e3 :=
      match onMessageCallback s2 with
      | Some cb => [CallMessage cb msg]
      | None => []
      end in
    (s2, e2 ++ e3).

(** The closure [() => { this.onMessageCallback = null; }]. *)
Definition unsubscribeMessage (s : State) : State :=
  set_onMessageCallback s None.

(** The closure [() => { this.onTelemetryCallback = null; }]. *)
Definition unsubscribeTelemetry (s : State) : State :=
  set_onTelemetryCallback s None.

(** [onMessage(callback)]: the new state and the returned unsubscribe
    closure. *)
Definition onMessage (s : State) (callback : MsgCb)
  : State * (State -> State) :=
  (set_onMessageCallback s (Some callback), unsubscribeMessage).

(** [onTelemetryUpdate(callback)], likewise. *)
Definition onTelemetryUpdate (s : State) (callback : TelCb)
  : State * (State -> State) :=
  (set_onTelemetryCallback s (Some callback), unsubscribeTelemetry).

(** The closure [sendCommand] hands to [setTimeout(..., 0)]. *)
Definition loopback (s : State) (msg : LegionMessage) : list Effect :=
  match onMessageCallback s with
  | Some cb => [CallMessage cb msg]
  | None => []
  end.

Definition socketOpen (s : State) : bool :=
  match socket s with
  | Some ws => match readyState ws with OPEN => true | _ => false end
  | None => false
  end.

(** [sendCommand(type, payload)].  [plugin] tells whether
    [window.Capacitor?.Plugins?.LegionLink] is present.  The state is not
    written. *)
Definition sendCommand (s : State) (now : Z) (plugin : bool)
           (t : MsgType) (p : option Payload) : list Effect :=
  let msg := mkMessage t now (deviceId s) p in
  if socketOpen s then [SocketSend msg]
  else
    match role s with
    | Some LEGATUS =>
        (if plugin then [PluginBroadcast (type msg) (payload msg) (protocol s)]
         else [])
        ++ [SetTimeout 0 msg]
    | _ => []
    end.

Definition heartbeatPeriod : Z := 5000.

Definition livenessTimeout : Z := 15000.

(** [startHeartbeat()] *)
Definition startHeartbeat (s : State) : State * list Effect :=
  match heartbeatInterval s with
  | Some _ => (s, [])
  | None =>
      let h := mkInterval heartbeatPeriod in
      (set_heartbeatInterval s (Some h), [SetInterval h])
  end.

(** [stopHeartbeat()] *)
Definition stopHeartbeat (s : State) : State * list Effect :=
  match heartbeatInterval s with
  | Some h => (set_heartbeatInterval s None, [ClearInterval h])
  | None => (s, [])
  end.

(** The [forEach] of the interval callback: the entries are visited in
    order; an entry older than the timeout is deleted from the map and
    [changed] is raised. *)
Fixpoint sweepLoop (now : Z) (entries : list (string * DeviceTelemetry))
         (devs : JsMap.t DeviceTelemetry) (changed : bool)
  : JsMap.t DeviceTelemetry * bool :=
  match entries with
  | [] => (devs, changed)
  | (k, d) :: rest =>
      if now - lastPing d >? livenessTimeout
      then sweepLoop now rest (JsMap.delete k devs) true
      else sweepLoop now rest devs changed
  end.

Definition nodeName (s : State) : string :=
  ("Node_" ++ String.substring 0 4 (deviceId s))%string.

Definition heartbeatPayload (s : State) : Payload :=
  mkPayload (Some (nodeName s)) (Some "ONLINE") None None None
            (Some (protocol s)).

(** The callback of the heartbeat interval.  [sendNow] is the clock reading
    inside [sendCommand], [now] the one taken for the sweep. *)
Definition heartbeatTick (s : State) (sendNow now : Z) (plugin : bool)
  : State * list Effect :=
  let e1 := sendCommand s sendNow plugin HEARTBEAT
                        (Some (heartbeatPayload s)) in
  let '(devs, changed) := sweepLoop now (devices s) (devices s) false in
  let s' := set_devices s devs in
  (s', e1 ++ (if changed then notifyTelemetry s' else [])).

(** [socket.onopen] as installed by [initialize]. *)
Definition socket_onopen (s : State) (now : Z) (plugin : bool)
           (proto : ConnectivityProtocol) : State * list Effect :=
  let e1 := sendCommand s now plugin HANDSHAKE
              (Some (mkPayload (Some (nodeName s)) None None None None
                               (Some proto))) in
  let '(s', e2) := startHeartbeat s in
  (s', e1 ++ e2).

(** [socket.onmessage] as installed by [initialize]; [data] is [None] when
    [JSON.parse] throws. *)
Definition socket_onmessage (s : State) (now : Z)
           (data : option LegionMessage) : State * list Effect :=
  match data with
  | Some msg => handleMessage s now msg
  | None => (s, [ConsoleError])
  end.

(** How the promise returned by [initialize] settles. *)
Inductive Outcome := Resolved | Rejected.

Definition socketUrl (proto : ConnectivityProtocol) (ip : string) : string :=
  ("ws://" ++ ip ++ ":"
           ++ (match proto with WIFI => "8080" | BLUETOOTH => "8081" end)
           ++ "/legion")%string.

(** [initialize(role, protocol, targetIp?)].  [ctorOk] tells whether the
    [WebSocket] constructor returns (it throws on a URL it cannot parse).
    The function does not await the connection. *)
Definition initialize (s : State) (r : LegionRole)
           (proto : ConnectivityProtocol) (targetIp : option string)
           (ctorOk : bool) : State * list Effect * Outcome :=
  let s1 := set_protocol (set_role s (Some r)) proto in
  let '(s2, e2) := stopHeartbeat s1 in
  if LegionRole_eqb r CENTURION && truthy targetIp then
    let u := socketUrl proto (str_or targetIp "") in
    if ctorOk then
      (set_socket s2 (Some (mkSocket u CONNECTING proto)),
       e2 ++ [NewWebSocket u], Resolved)
    else (s2, e2, Rejected)
  else
    let '(s3, e3) := startHeartbeat s2 in
    (s3, e2 ++ e3, Resolved).

End Service.

Arguments mkState {MsgCb TelCb}.
Arguments socket {MsgCb TelCb}.
Arguments role {MsgCb TelCb}.
Arguments protocol {MsgCb TelCb}.
Arguments deviceId {MsgCb TelCb}.
Arguments syncOffset {MsgCb TelCb}.
Arguments onMessageCallback {MsgCb TelCb}.
Arguments onTelemetryCallback {MsgCb TelCb}.
Arguments heartbeatInterval {MsgCb TelCb}.
Arguments devices {MsgCb TelCb}.
Arguments create {MsgCb TelCb}.
Arguments set_socket {MsgCb TelCb}.
Arguments set_role {MsgCb TelCb}.
Arguments set_protocol {MsgCb TelCb}.
Arguments set_syncOffset {MsgCb TelCb}.
Arguments set_onMessageCallback {MsgCb TelCb}.
Arguments set_onTelemetryCallback {MsgCb TelCb}.
Arguments set_heartbeatInterval {MsgCb TelCb}.
Arguments set_devices {MsgCb TelCb}.
Arguments getSynchronizedTime {MsgCb TelCb}.
Arguments getConnectedDevices {MsgCb TelCb}.
Arguments getDeviceId {MsgCb TelCb}.
Arguments getProtocol {MsgCb TelCb}.
Arguments notifyTelemetry {MsgCb TelCb}.
Arguments handleMessage {MsgCb TelCb}.
Arguments unsubscribeMessage {MsgCb TelCb}.
Arguments unsubscribeTelemetry {MsgCb TelCb}.
Arguments onMessage {MsgCb TelCb}.
Arguments onTelemetryUpdate {MsgCb TelCb}.
Arguments loopback {MsgCb TelCb}.
Arguments socketOpen {MsgCb TelCb}.
Arguments sendCommand {MsgCb TelCb}.
Arguments startHeartbeat {MsgCb TelCb}.
Arguments stopHeartbeat {MsgCb TelCb}.
Arguments heartbeatPayload {MsgCb TelCb}.
Arguments nodeName {MsgCb TelCb}.
Arguments heartbeatTick {MsgCb TelCb}.
Arguments socket_onopen {MsgCb TelCb}.
Arguments socket_onmessage {MsgCb TelCb}.
Arguments initialize {MsgCb TelCb}.
Arguments NewWebSocket {MsgCb TelCb}.
Arguments SocketSend {MsgCb TelCb}.
Arguments PluginBroadcast {MsgCb TelCb}.
Arguments CallMessage {MsgCb TelCb}.
Arguments CallTelemetry {MsgCb TelCb}.
Arguments SetTimeout {MsgCb TelCb}.
Arguments SetInterval {MsgCb TelCb}.
Arguments ClearInterval {MsgCb TelCb}.
Arguments ConsoleError {MsgCb TelCb}.

End LegionService.

(** ** The capture layer (components/CameraInterface.tsx) *)

Module Camera.

(** The part of the component's state the recording controls read and
    write.  [isRecording] stands for the React state and for its mirror
    [isRecordingRef.current], which an effect copies from it after the
    render that follows [setIsRecording]; the two are taken to agree
    whenever a handler runs. *)
Record State := mkCamera {
  stream : bool;
  mediaRecorder : bool;
  isRecording : bool;
  isLegionMode : bool;
  legionRole : option LegionRole
}.

Inductive Effect :=
| RecorderStart
| RecorderStop
| SendCommand (t : MsgType) (p : option Payload)
| SetTimeoutStart (delay : Z).

Definition initial : State := mkCamera false false false false None.

Definition isCommander (c : State) : bool :=
  isLegionMode c &&
  match legionRole c with Some LEGATUS => true | _ => false end.

Definition delayPayload (d : Z) : Payload :=
  mkPayload None None None None (Some d) None.

(** [startRecording(broadcast = true)] *)
Definition startRecording (c : State) (broadcast : bool)
  : State * list Effect :=
  if negb (stream c) then (c, [])
  else
    (mkCamera (stream c) true true (isLegionMode c) (legionRole c),
     RecorderStart ::
     (if broadcast && isCommander c
      then [SendCommand START_REC (Some (delayPayload 500))] else [])).

(** [stopRecording(broadcast = true)] *)
Definition stopRecording (c : State) (broadcast : bool)
  : State * list Effect :=
  if mediaRecorder c && isRecording c then
    (mkCamera (stream c) (mediaRecorder c) false (isLegionMode c)
              (legionRole c),
     RecorderStop ::
     (if broadcast && isCommander c
      then [SendCommand STOP_REC None] else []))
  else (c, []).

(** [handleShutterAction()] in a video mode ([VIDEO] or [LEGION_LINK]). *)
Definition handleShutterAction (c : State) (isProcessing : bool)
  : State * list Effect :=
  if isProcessing then (c, [])
  else if isRecording c then stopRecording c true
  else startRecording c true.

(** The closure the listener hands to [setTimeout]:
    [() => { if (!isRecordingRef.current) startRecording(false); }]. *)
Definition delayedStart (c : State) : State * list Effect :=
  if negb (isRecording c) then startRecording c false else (c, []).

(** The wait the listener computes for a [START_REC];
    [ownId] is [legionService.getDeviceId()] and [syncNow] is
    [legionService.getSynchronizedTime()]. *)
Definition startDelay (msg : LegionMessage) (syncNow : Z) : Z :=
  Z.max 0 ((timestamp msg + payload_delay msg) - syncNow).

(** The listener registered with [legionService.onMessage]. *)
Definition onLegionMessage (ownId : string) (syncNow : Z) (c : State)
           (msg : LegionMessage) : State * list Effect :=
  if String.eqb (senderId msg) ownId then (c, [])
  else
    match type msg with
    | START_REC => (c, [SetTimeoutStart (startDelay msg syncNow)])
    | STOP_REC => if isRecording c then stopRecording c false else (c, [])
    | _ => (c, [])
    end.

End Camera.

(** ** The fleet dashboard: [handleGlobalStart] and [handleGlobalStop] *)

Module Dashboard.

Definition handleGlobalStart : list Camera.Effect :=
  [Camera.SendCommand START_REC (Some (Camera.delayPayload 1000))].

Definition handleGlobalStop : list Camera.Effect :=
  [Camera.SendCommand STOP_REC None].

End Dashboard.

(** ** The application on one device: service, capture layer, event loop *)

Module System.

(** The observers the application registers: the listener of
    [CameraInterface], and the [setDevices] of [CameraInterface] and of
    [Dashboard]. *)
Inductive MessageObserver := CameraOnMessage.

Inductive TelemetryObserver := CameraSetDevices | DashboardSetDevices.

Definition Svc := LegionService.State MessageObserver TelemetryObserver.

Definition SvcEffect := LegionService.Effect MessageObserver TelemetryObserver.

(** A closure waiting in the timer queue. *)
Inductive Task :=
| LoopbackTask (m : LegionMessage)
| DelayedStartTask.

Record World := mkWorld {
  svc : Svc;
  cam : Camera.State;
  timeouts : list (Z * Task);
  plugin : bool
}.

(** What one turn of the event loop makes observable, in order. *)
Inductive Output :=
| RecorderStarted
| RecorderStopped
| Sent (m : LegionMessage)
| Broadcast (t : MsgType) (p : option Payload) (proto : ConnectivityProtocol)
| Observed (m : LegionMessage)
| TelemetryDelivered (cb : TelemetryObserver) (ds : list DeviceTelemetry)
| SocketCreated (u : string)
| Settled (o : LegionService.Outcome)
| Logged
| RangeError.

Definition set_svc (w : World) (s : Svc) : World :=
  mkWorld s (cam w) (timeouts w) (plugin w).

Definition set_cam (w : World) (c : Camera.State) : World :=
  mkWorld (svc w) c (timeouts w) (plugin w).

Definition set_timeouts (w : World) (l : list (Z * Task)) : World :=
  mkWorld (svc w) (cam w) l (plugin w).

(** [setTimeout(task, delay)] called at [now]. *)
Definition addTimeout (w : World) (now delay : Z) (t : Task) : World :=
  set_timeouts w (timeouts w ++ [(now + delay, t)]).

(** Performing effects one after the other. *)
Fixpoint runList {E} (f : World -> E -> World * list Output) (w : World)
         (es : list E) : World * list Output :=
  match es with
  | [] => (w, [])
  | e :: r =>
      let '(w1, o1) := f w e in
      let '(w2, o2) := runList f w1 r in
      (w2, o1 ++ o2)
  end.

(** An effect of the capture layer, given how an effect of the service is
    performed. *)
Definition execCamWith (ex : World -> SvcEffect -> World * list Output)
           (now : Z) (w : World) (e : Camera.Effect) : World * list Output :=
  match e with
  | Camera.RecorderStart => (w, [RecorderStarted])
  | Camera.RecorderStop => (w, [RecorderStopped])
  | Camera.SetTimeoutStart d => (addTimeout w now d DelayedStartTask, [])
  | Camera.SendCommand t p =>
      runList ex w (LegionService.sendCommand (svc w) now (plugin w) t p)
  end.

(** An effect of the service.  Calling the message observer takes a stack
    frame; [depth] is the number of frames left, and a call with none left
    is JavaScript's [RangeError]. *)
Fixpoint exec (depth : nat) (now : Z) (w : World) (e : SvcEffect)
  : World * list Output :=
  match e with
  | LegionService.NewWebSocket u => (w, [SocketCreated u])
  | LegionService.SocketSend m => (w, [Sent m])
  | LegionService.PluginBroadcast t p proto => (w, [Broadcast t p proto])
  | LegionService.CallTelemetry cb ds => (w, [TelemetryDelivered cb ds])
  | LegionService.SetTimeout d m => (addTimeout w now d (LoopbackTask m), [])
  | LegionService.SetInterval _ => (w, [])
  | LegionService.ClearInterval _ => (w, [])
  | LegionService.ConsoleError => (w, [Logged])
  | LegionService.CallMessage CameraOnMessage m =>
      match depth with
      | O => (w, [RangeError])
      | S d =>
          let '(c, ces) :=
            Camera.onLegionMessage
              (LegionService.getDeviceId (svc w))
              (LegionService.getSynchronizedTime (svc w) now)
              (cam w) m in
          let '(w', o) :=
            runList (execCamWith (exec d now) now) (set_cam w c) ces in
          (w', Observed m :: o)
      end
  end.

Definition stackDepth : nat := 64%nat.

Definition runService (now : Z) (w : World) (es : list SvcEffect)
  : World * list Output :=
  runList (exec stackDepth now) w es.

Definition runCamera (now : Z) (w : World) (es : list Camera.Effect)
  : World * list Output :=
  runList (execCamWith (exec stackDepth now) now) w es.

(** The turns of the event loop. *)
Inductive Event :=
(** [legionService.initialize(role, protocol, targetIp)] *)
| Initialize (r : LegionRole) (proto : ConnectivityProtocol)
             (targetIp : option string) (ctorOk : bool)
(** [App.onLegionConnected(role)] and the effect of [CameraInterface] that
    follows a change of [isLegionMode] *)
| Connected (r : LegionRole)
(** [setMode]: entering or leaving [LEGION_LINK] *)
| ChangeMode (legion : bool)
(** the mount effect of [Dashboard] *)
| OpenDashboard
| SocketOpened
| SocketMessage (data : option LegionMessage)
| SocketClosed
| HeartbeatTick
(** the [i]-th closure of the timer queue runs *)
| Timeout (i : nat)
| Shutter (isProcessing : bool)
| GlobalStart
| GlobalStop
(** [getUserMedia] resolves *)
| StreamReady.

(** The body of the [isLegionMode] effect of [CameraInterface]: the service
    it leaves and the cleanup it returns,
    [() => { unsubTelemetry(); unsubMessages(); }]. *)
Definition subscribe (s : Svc) : Svc * (Svc -> Svc) :=
  let '(s1, unsubTelemetry) :=
    LegionService.onTelemetryUpdate s CameraSetDevices in
  let '(s2, unsubMessages) := LegionService.onMessage s1 CameraOnMessage in
  (s2, fun s' => unsubMessages (unsubTelemetry s')).

(** The cleanup the effect returned, which React runs when [isLegionMode]
    turns false.  It does not depend on the state in which the effect ran. *)
Definition unsubscribe : Svc -> Svc :=
  snd (subscribe (LegionService.create "")).

Definition setLegionMode (w : World) (legion : bool)
           (r : option LegionRole) : World :=
  let c := cam w in
  let c' := Camera.mkCamera (Camera.stream c) (Camera.mediaRecorder c)
              (Camera.isRecording c) legion r in
  let s' :=
    match Camera.isLegionMode c, legion with
    | false, true => fst (subscribe (svc w))
    | true, false => unsubscribe (svc w)
    | _, _ => svc w
    end in
  set_cam (set_svc w s') c'.

Definition removeNth {A} (i : nat) (l : list A) : list A :=
  firstn i l ++ skipn (S i) l.

Definition step (w : World) (now : Z) (ev : Event)
  : option (World * list Output) :=
  match ev with
  | Initialize r proto ip ctorOk =>
      let '(s, es, o) :=
        LegionService.initialize (svc w) r proto ip ctorOk in
      let '(w', out) := runService now (set_svc w s) es in
      Some (w', out ++ [Settled o])
  | Connected r => Some (setLegionMode w true (Some r), [])
  | ChangeMode legion =>
      match legion, Camera.legionRole (cam w) with
      | true, None => None
      | _, r => Some (setLegionMode w legion r, [])
      end
  | OpenDashboard =>
      match Camera.legionRole (cam w) with
      | Some LEGATUS =>
          Some (set_svc w (fst (LegionService.onTelemetryUpdate
                                  (svc w) DashboardSetDevices)), [])
      | _ => None
      end
  | SocketOpened =>
      match LegionService.socket (svc w) with
      | Some (mkSocket u CONNECTING proto) =>
          let s0 := LegionService.set_socket (svc w)
                      (Some (mkSocket u OPEN proto)) in
          let '(s, es) :=
            LegionService.socket_onopen s0 now (plugin w) proto in
          Some (runService now (set_svc w s) es)
      | _ => None
      end
  | SocketMessage data =>
      if LegionService.socketOpen (svc w) then
        let '(s, es) := LegionService.socket_onmessage (svc w) now data in
        Some (runService now (set_svc w s) es)
      else None
  | SocketClosed =>
      match LegionService.socket (svc w) with
      | Some (mkSocket u _ proto) =>
          Some (set_svc w (LegionService.set_socket (svc w)
                             (Some (mkSocket u CLOSED proto))), [])
      | None => None
      end
  | HeartbeatTick =>
      match LegionService.heartbeatInterval (svc w) with
      | Some _ =>
          let '(s, es) :=
            LegionService.heartbeatTick (svc w) now now (plugin w) in
          Some (runService now (set_svc w s) es)
      | None => None
      end
  | Timeout i =>
      match nth_error (timeouts w) i with
      | Some (due, t) =>
          if due <=? now then
            let w0 := set_timeouts w (removeNth i (timeouts w)) in
            match t with
            | LoopbackTask m =>
                Some (runService now w0 (LegionService.loopback (svc w0) m))
            | DelayedStartTask =>
                let '(c, ces) := Camera.delayedStart (cam w0) in
                Some (runCamera now (set_cam w0 c) ces)
            end
          else None
      | None => None
      end
  | Shutter isProcessing =>
      let '(c, ces) := Camera.handleShutterAction (cam w) isProcessing in
      Some (runCamera now (set_cam w c) ces)
  | GlobalStart =>
      match Camera.legionRole (cam w) with
      | Some LEGATUS => Some (runCamera now w Dashboard.handleGlobalStart)
      | _ => None
      end
  | GlobalStop =>
      match Camera.legionRole (cam w) with
      | Some LEGATUS => Some (runCamera now w Dashboard.handleGlobalStop)
      | _ => None
      end
  | StreamReady =>
      let c := cam w in
      Some (set_cam w (Camera.mkCamera true (Camera.mediaRecorder c)
                         (Camera.isRecording c) (Camera.isLegionMode c)
                         (Camera.legionRole c)), [])
  end.

(** A sequence of turns, each with the clock reading at which it runs;
    [None] when a turn cannot happen in the state it meets. *)
Fixpoint run (w : World) (evs : list (Z * Event))
  : option (World * list Output) :=
  match evs with
  | [] => Some (w, [])
  | (now, ev) :: r =>
      match step w now ev with
      | Some (w1, o1) =>
          match run w1 r with
          | Some (w2, o2) => Some (w2, o1 ++ o2)
          | None => None
          end
      | None => None
      end
  end.

(** The application at start-up. *)
Definition boot (uuid : string) (hasPlugin : bool) : World :=
  mkWorld (LegionService.create uuid) Camera.initial [] hasPlugin.

Definition reachable (uuid : string) (hasPlugin : bool) (w : World) : Prop :=
  exists evs out, run (boot uuid hasPlugin) evs = Some (w, out).

End System.

(** A record older than the liveness timeout at [now]. *)
Definition expired (now : Z) (kd : string * DeviceTelemetry) : bool :=
  now - lastPing (snd kd) >? LegionService.livenessTimeout.

(** ** Vocabulary for statements about turns *)

Module SystemSpec.

Import System.

(** Two worlds with the same service and the same environment. *)
Definition same_svc (a b : World) : Prop :=
  svc b = svc a /\ plugin b = plugin a.

(** The service state a turn leaves, stated without the effects. *)
Definition svcAfter (w : World) (now : Z) (ev : Event) : Svc :=
  match ev with
  | Initialize r proto ip ctorOk =>
      fst (fst (LegionService.initialize (svc w) r proto ip ctorOk))
  | Connected r => svc (setLegionMode w true (Some r))
  | ChangeMode legion =>
      svc (setLegionMode w legion (Camera.legionRole (cam w)))
  | OpenDashboard =>
      fst (LegionService.onTelemetryUpdate (svc w) DashboardSetDevices)
  | SocketOpened =>
      match LegionService.socket (svc w) with
      | Some (mkSocket u _ proto) =>
          fst (LegionService.socket_onopen
                 (LegionService.set_socket (svc w) (Some (mkSocket u OPEN proto)))
                 now (plugin w) proto)
      | None => svc w
      end
  | SocketMessage data =>
      fst (LegionService.socket_onmessage (svc w) now data)
  | SocketClosed =>
      match LegionService.socket (svc w) with
      | Some (mkSocket u _ proto) =>
          LegionService.set_socket (svc w) (Some (mkSocket u CLOSED proto))
      | None => svc w
      end
  | HeartbeatTick =>
      fst (LegionService.heartbeatTick (svc w) now now (plugin w))
  | Timeout _ | Shutter _ | GlobalStart | GlobalStop | StreamReady => svc w
  end.

(** A turn that gives the clock synchronizer a sample: a [SYNC] or
    [HEARTBEAT] of another sender arrives on the socket. *)
Definition isSyncSample (ownId : string) (ev : Event) : bool :=
  match ev with
  | SocketMessage (Some m) =>
      negb (String.eqb (senderId m) ownId)
      && (MsgType_eqb (type m) SYNC || MsgType_eqb (type m) HEARTBEAT)
  | _ => false
  end.

(** A turn that gives the service a socket: [initialize] as a field node
    with a target address. *)
Definition opensSocket (ev : Event) : bool :=
  match ev with
  | Initialize r _ ip _ => LegionRole_eqb r CENTURION && truthy ip
  | _ => false
  end.

End SystemSpec.

(** ** Scenarios *)

Module Scenarios.

Import LegionService System.

(** A commander that knows two field nodes, last seen at 1000 and at 9000. *)
Definition c7_state : State unit unit :=
  mkState None (Some LEGATUS) WIFI "cmdr" 0 None (Some tt)
          (Some (mkInterval 5000))
          [("a", mkDevice "a" "Node_a" CENTURION "ONLINE" "STANDARD" None 1000);
           ("b", mkDevice "b" "Node_b" CENTURION "ONLINE" "STANDARD" None 9000)].

(** A commander that has heard a handshake of ["field"] at 10 and then only
    its heartbeats, every five seconds. *)
Definition c2_commander : State unit unit :=
  fst (fst (initialize (create "cmdr") LEGATUS WIFI None true)).

Definition c2_heartbeat (t : Z) : LegionMessage :=
  mkMessage HEARTBEAT t "field"
            (Some (mkPayload (Some "Node_fiel") (Some "ONLINE") None None None
                             (Some WIFI))).

Definition c2_handshake (t : Z) : LegionMessage :=
  mkMessage HANDSHAKE t "field"
            (Some (mkPayload (Some "Node_fiel") None None None None
                             (Some WIFI))).

Definition c2_after_heartbeats : State unit unit :=
  let s1 := fst (handleMessage c2_commander 10 (c2_handshake 0)) in
  let s2 := fst (handleMessage s1 5010 (c2_heartbeat 5000)) in
  let s3 := fst (handleMessage s2 10010 (c2_heartbeat 10000)) in
  fst (handleMessage s3 15010 (c2_heartbeat 15000)).

(** A commander in Legion mode with a stream, the listener registered. *)
Definition c9_commander : World :=
  mkWorld (mkState None (Some LEGATUS) WIFI "cmdr" 0 (Some CameraOnMessage)
                   (Some CameraSetDevices) (Some (mkInterval 5000)) [])
          (Camera.mkCamera true false false true (Some LEGATUS))
          [] true.

(** A field node with an open socket and an offset of 7, and a [SYNC] stamped
    1000 that it handles at 1250. *)
Definition c5_field_node : World :=
  mkWorld (mkState (Some (mkSocket "ws://10.0.0.1:8080/legion" OPEN WIFI))
                   (Some CENTURION) WIFI "node" 7 (Some CameraOnMessage)
                   (Some CameraSetDevices) (Some (mkInterval 5000)) [])
          (Camera.mkCamera true false false true (Some CENTURION))
          [] false.

Definition c5_sync : LegionMessage := mkMessage SYNC 1000 "cmdr" None.

Definition c5_after : World :=
  match step c5_field_node 1250 (SocketMessage (Some c5_sync)) with
  | Some (w1, _) => w1
  | None => c5_field_node
  end.

(** A commander that starts and stops the fleet from the dashboard and emits
    a heartbeat; each dispatch loops back. *)
Definition c6_trace : list (Z * Event) :=
  [(0, StreamReady);
   (0, Initialize LEGATUS WIFI None true);
   (1, Connected LEGATUS);
   (1, OpenDashboard);
   (10, GlobalStart);
   (10, Timeout 0%nat);
   (5000, HeartbeatTick);
   (5000, Timeout 0%nat);
   (6000, GlobalStop);
   (6000, Timeout 0%nat)].

Definition c6_commander : World :=
  match run (boot "cmdr" true) c6_trace with
  | Some (w, _) => w
  | None => boot "cmdr" true
  end.

Definition c6_outputs : list Output :=
  match run (boot "cmdr" true) c6_trace with
  | Some (_, out) => out
  | None => []
  end.

(** The scenario of the specification: a [START_REC] stamped 0 with delay 500
    reaches a field node with offset 0 at time 50; the start is due 450 ms
    later. *)
Definition c4_field_node : World :=
  mkWorld (mkState (Some (mkSocket "ws://10.0.0.1:8080/legion" OPEN WIFI))
                   (Some CENTURION) WIFI "node" 0 (Some CameraOnMessage)
                   (Some CameraSetDevices) (Some (mkInterval 5000)) [])
          (Camera.mkCamera true false false true (Some CENTURION))
          [] false.

Definition c4_start : LegionMessage :=
  mkMessage START_REC 0 "cmdr" (Some (Camera.delayPayload 500)).

(** A field node that is told to start with a lead of 500 ms, and to stop
    while the start is pending. *)
Definition c3_trace : list (Z * Event) :=
  [(0, StreamReady);
   (0, Initialize CENTURION WIFI (Some "10.0.0.1") true);
   (1, Connected CENTURION);
   (2, SocketOpened);
   (50, SocketMessage
          (Some (mkMessage START_REC 0 "cmdr"
                           (Some (Camera.delayPayload 500)))));
   (100, SocketMessage (Some (mkMessage STOP_REC 100 "cmdr" None)));
   (500, Timeout 0%nat)].



(** A commander that starts from the shutter, and one that starts from the
    dashboard. *)
Definition c1_shutter_trace : list (Z * Event) :=
  [(0, StreamReady);
   (0, Initialize LEGATUS WIFI None true);
   (1, Connected LEGATUS);
   (10, Shutter false);
   (10, Timeout 0%nat)].

Definition c1_dashboard_trace : list (Z * Event) :=
  [(0, StreamReady);
   (0, Initialize LEGATUS WIFI None true);
   (1, Connected LEGATUS);
   (10, GlobalStart);
   (10, Timeout 0%nat)].

(** The commander of the run above, when the shutter is pressed at 10. *)
Definition c1_commander : World :=
  match run (boot "cmdr" true) (firstn 3 c1_shutter_trace) with
  | Some (w, _) => w
  | None => boot "cmdr" true
  end.

(** The commander that has started the fleet from the dashboard at 10, its
    loopback waiting. *)
Definition c1_dispatched : World :=
  match run (boot "cmdr" true) (firstn 4 c1_dashboard_trace) with
  | Some (w, _) => w
  | None => boot "cmdr" true
  end.

Definition c1_dispatched_outputs : list Output :=
  match run (boot "cmdr" true) (firstn 4 c1_dashboard_trace) with
  | Some (_, out) => out
  | None => []
  end.

End Scenarios.

(** ** Regular expressions without star (the address check of the HUD) *)

Module Regex.

Inductive re :=
| Void
| Eps
| Class (p : ascii -> bool)
| Cat (a b : re)
| Alt (a b : re).

(** [r?] *)
Definition Opt (r : re) : re := Alt Eps r.

(** [r{1,3}] *)
Definition Rep13 (r : re) : re := Cat r (Opt (Cat r (Opt r))).

(** [r{3}] *)
Definition Rep3 (r : re) : re := Cat r (Cat r r).

Fixpoint nullable (r : re) : bool :=
  match r with
  | Void => false
  | Eps => true
  | Class _ => false
  | Cat a b => nullable a && nullable b
  | Alt a b => nullable a || nullable b
  end.

(** The derivative of [r] by the character [c]. *)
Fixpoint deriv (c : ascii) (r : re) : re :=
  match r with
  | Void => Void
  | Eps => Void
  | Class p => if p c then Eps else Void
  | Cat a b =>
      Alt (Cat (deriv c a) b) (if nullable a then deriv c b else Void)
  | Alt a b => Alt (deriv c a) (deriv c b)
  end.

(** [/^r$/.test(s)] *)
Fixpoint test (r : re) (s : string) : bool :=
  match s with
  | EmptyString => nullable r
  | String c s' => test (deriv c r) s'
  end.

(** The strings an expression denotes. *)
Fixpoint lang (r : re) (s : string) : Prop :=
  match r with
  | Void => False
  | Eps => s = ""
  | Class p => exists c, s = String c "" /\ p c = true
  | Cat a b => exists s1 s2, s = (s1 ++ s2)%string /\ lang a s1 /\ lang b s2
  | Alt a b => lang a s \/ lang b s
  end.

(** [[0-9]] *)
Definition digit (c : ascii) : bool :=
  (48 <=? nat_of_ascii c)%nat && (nat_of_ascii c <=? 57)%nat.

(** [\.] *)
Definition dot (c : ascii) : bool := Ascii.eqb c ".".

(** A string of one to three decimal digits. *)
Definition octet (s : string) : bool :=
  match s with
  | String a "" => digit a
  | String a (String b "") => digit a && digit b
  | String a (String b (String c "")) => digit a && digit b && digit c
  | _ => false
  end.

End Regex.

(** ** The connection dialog (components/LegionHUD.tsx) *)

Module LegionHUD.

(** [/^(?:[0-9]{1,3}\.){3}[0-9]{1,3}$/] *)
Definition ipRegex : Regex.re :=
  Regex.Cat
    (Regex.Rep3 (Regex.Cat (Regex.Rep13 (Regex.Class Regex.digit))
                           (Regex.Class Regex.dot)))
    (Regex.Rep13 (Regex.Class Regex.digit)).

Record State := mkHud {
  role : option LegionRole;
  protocol : ConnectivityProtocol;
  ipAddress : string;
  isConnecting : bool;
  error : option string
}.

Definition initial : State := mkHud None WIFI "" false None.

Definition set_error (h : State) (e : option string) : State :=
  mkHud (role h) (protocol h) (ipAddress h) (isConnecting h) e.

Definition set_isConnecting (h : State) (b : bool) : State :=
  mkHud (role h) (protocol h) (ipAddress h) b (error h).

Definition set_role (h : State) (r : option LegionRole) : State :=
  mkHud r (protocol h) (ipAddress h) (isConnecting h) (error h).

(** The input of the address field:
    [(e) => { setIpAddress(e.target.value); setError(null); }]. *)
Definition onChangeIp (h : State) (v : string) : State :=
  mkHud (role h) (protocol h) v (isConnecting h) None.

(** The back button:
    [() => { setRole(null); setError(null); setIsConnecting(false); }]. *)
Definition onBack (h : State) : State :=
  mkHud None (protocol h) (ipAddress h) false None.

Section WithService.

Variables MsgCb TelCb : Type.

(** What a start button leaves: the dialog, the service, the effects of the
    service, and the argument of [onConnected] when it is called. *)
Definition Result : Type :=
  State * LegionService.State MsgCb TelCb
  * list (LegionService.Effect MsgCb TelCb) * option LegionRole.

(** [startAsLegatus] *)
Definition startAsLegatus (h : State) (s : LegionService.State MsgCb TelCb)
           (ctorOk : bool) : Result :=
  let h1 := set_isConnecting (set_role h (Some LEGATUS)) true in
  let '(s', es, o) :=
    LegionService.initialize s LEGATUS (protocol h) None ctorOk in
  match o with
  | LegionService.Resolved => (h1, s', es, Some LEGATUS)
  | LegionService.Rejected =>
      (set_isConnecting
         (set_error h1 (Some "Failed to initialize commander node.")) false,
       s', es, None)
  end.

(** [startAsCenturion] *)
Definition startAsCenturion (h : State) (s : LegionService.State MsgCb TelCb)
           (ctorOk : bool) : Result :=
  if String.eqb (ipAddress h) "" then
    (set_error h (Some "Please enter the commander IP address."), s, [], None)
  else if negb (Regex.test ipRegex (ipAddress h)) then
    (set_error h (Some "Invalid IP address format."), s, [], None)
  else
    let h1 := set_error (set_isConnecting h true) None in
    let '(s', es, o) :=
      LegionService.initialize s CENTURION (protocol h) (Some (ipAddress h))
                               ctorOk in
    match o with
    | LegionService.Resolved => (h1, s', es, Some CENTURION)
    | LegionService.Rejected =>
        (set_isConnecting
           (set_error h1
              (Some "Could not establish link. Ensure devices are on same network/range."))
           false,
         s', es, None)
    end.

End WithService.

Arguments startAsLegatus {MsgCb TelCb}.
Arguments startAsCenturion {MsgCb TelCb}.

End LegionHUD.

(** ** The application shell (App.tsx) *)

Module App.

Inductive CameraMode :=
  PHOTO | VIDEO | SCOUT | CINEMA | HDR_FUSION | NIGHT_STACK | AI_GENERATE
| LEGION_LINK | M_PRO | PORTRAIT.

Definition CameraMode_eqb (a b : CameraMode) : bool :=
  match a, b with
  | PHOTO, PHOTO | VIDEO, VIDEO | SCOUT, SCOUT | CINEMA, CINEMA
  | HDR_FUSION, HDR_FUSION | NIGHT_STACK, NIGHT_STACK
  | AI_GENERATE, AI_GENERATE | LEGION_LINK, LEGION_LINK | M_PRO, M_PRO
  | PORTRAIT, PORTRAIT => true
  | _, _ => false
  end.

Record State := mkApp {
  mode : CameraMode;
  legionRole : option LegionRole;
  isLegionHUDOpen : bool;
  isDashboardOpen : bool
}.

(** The initial values of the [useState] hooks. *)
Definition initial : State := mkApp PHOTO None false false.

(** [proModes] of [checkProPermissions]. *)
Definition proModes : list CameraMode := [CINEMA; AI_GENERATE; M_PRO].

(** [checkProPermissions(targetMode)]: the value it resolves to, and whether
    it called [aistudio.openSelectKey()].  [aistudio] tells whether
    [window.aistudio] is defined, [hasKey] what [hasSelectedApiKey()]
    answers. *)
Definition checkProPermissions (targetMode : CameraMode)
           (aistudio hasKey : bool) : bool * bool :=
  if existsb (CameraMode_eqb targetMode) proModes then
    if aistudio then
      if negb hasKey then (true, true) else (true, false)
    else (true, false)
  else (true, false).

(** [handleModeChange(newMode)] *)
Definition handleModeChange (a : State) (newMode : CameraMode)
           (aistudio hasKey : bool) : State :=
  let '(permitted, _) := checkProPermissions newMode aistudio hasKey in
  if negb permitted then a
  else
    match newMode, legionRole a with
    | LEGION_LINK, None =>
        mkApp (mode a) (legionRole a) true (isDashboardOpen a)
    | _, _ => mkApp newMode (legionRole a) (isLegionHUDOpen a)
                    (isDashboardOpen a)
    end.

(** [onLegionConnected(role)] *)
Definition onLegionConnected (a : State) (r : LegionRole) : State :=
  mkApp LEGION_LINK (Some r) false
        (match r with LEGATUS => true | CENTURION => isDashboardOpen a end).

(** What the user and the dialog can do to the shell. *)
Inductive Event :=
| ModeChange (newMode : CameraMode) (aistudio hasKey : bool)
| LegionConnected (r : LegionRole)
(** [onCancel] of the dialog *)
| HudCancel
(** the overview button of the header *)
| DashboardOpen
(** [onBackToCamera] of the dashboard *)
| DashboardBack.

Definition step (a : State) (ev : Event) : State :=
  match ev with
  | ModeChange m k h => handleModeChange a m k h
  | LegionConnected r => onLegionConnected a r
  | HudCancel => mkApp (mode a) (legionRole a) false (isDashboardOpen a)
  | DashboardOpen => mkApp (mode a) (legionRole a) (isLegionHUDOpen a) true
  | DashboardBack => mkApp (mode a) (legionRole a) (isLegionHUDOpen a) false
  end.

Definition run (a : State) (evs : list Event) : State := fold_left step evs a.

Definition isLegatus (a : State) : bool :=
  match legionRole a with Some LEGATUS => true | _ => false end.

(** Whether the interface offers an event.  The dialog is rendered while
    [isLegionHUDOpen], and its start buttons call [onConnected] in the task
    of the click ([initialize] awaits nothing); the overview button is
    rendered while [legionRole === 'LEGATUS'], the dashboard while
    [isDashboardOpen && legionRole === 'LEGATUS']; the mode buttons are always
    there. *)
Definition offered (a : State) (ev : Event) : bool :=
  match ev with
  | ModeChange _ _ _ => true
  | LegionConnected _ => isLegionHUDOpen a
  | HudCancel => isLegionHUDOpen a
  | DashboardOpen => isLegatus a
  | DashboardBack => isDashboardOpen a && isLegatus a
  end.

(** A sequence of events, each offered when it happens. *)
Fixpoint session (a : State) (evs : list Event) : option State :=
  match evs with
  | [] => Some a
  | ev :: r => if offered a ev then session (step a ev) r else None
  end.

(** The Legion mode is shown only to a node that has a role. *)
Definition linked (a : State) : Prop :=
  mode a = LEGION_LINK -> legionRole a <> None.

(** A node that has a role does not see the dialog. *)
Definition settled (a : State) : Prop :=
  legionRole a <> None -> isLegionHUDOpen a = false.

End App.

(** ** The composition guide of the viewfinder (CameraInterface.tsx) *)

Module Grid.

Inductive GridType := G3x3 | GOLDEN.

Record State := mkGrid { showGrid : bool; gridType : GridType }.

(** [useState(true)] and [useState('3x3')]. *)
Definition initial : State := mkGrid true G3x3.

(** [toggleGrid], which is also the [onClick] of the guide button. *)
Definition toggleGrid (g : State) : State :=
  if negb (showGrid g) then mkGrid true (gridType g)
  else
    match gridType g with
    | G3x3 => mkGrid (showGrid g) GOLDEN
    | GOLDEN => mkGrid false (gridType g)
    end.

Fixpoint toggles (n : nat) (g : State) : State :=
  match n with
  | O => g
  | S k => toggles k (toggleGrid g)
  end.

End Grid.

(** ** The service as its callers see it: sequences of calls *)

Module ServiceApi.

Section Api.

Variables MsgCb TelCb : Type.

(** A call of a method of the service, or of a callback the service gave to
    the browser (socket handlers, the interval, the loopback timeout). *)
Inductive Call :=
| Initialize (r : LegionRole) (proto : ConnectivityProtocol)
             (targetIp : option string) (ctorOk : bool)
| SocketOnOpen (now : Z) (plugin : bool)
| SocketOnMessage (now : Z) (data : option LegionMessage)
| OnMessage (cb : MsgCb)
| OnTelemetryUpdate (cb : TelCb)
| UnsubscribeMessage
| UnsubscribeTelemetry
| SendCommand (now : Z) (plugin : bool) (t : MsgType) (p : option Payload)
| StartHeartbeat
| StopHeartbeat
| IntervalTick (sendNow now : Z) (plugin : bool)
| TimeoutLoopback (m : LegionMessage).

(** The browser calls [onopen] on a socket that has opened, [onmessage] on an
    open socket, the interval callback while the interval is installed. *)
Definition apply (s : LegionService.State MsgCb TelCb) (c : Call)
  : LegionService.State MsgCb TelCb
    * list (LegionService.Effect MsgCb TelCb) :=
  match c with
  | Initialize r proto ip ctorOk =>
      fst (LegionService.initialize s r proto ip ctorOk)
  | SocketOnOpen now plugin =>
      match LegionService.socket s with
      | Some (mkSocket u _ proto) =>
          LegionService.socket_onopen
            (LegionService.set_socket s (Some (mkSocket u OPEN proto)))
            now plugin proto
      | None => (s, [])
      end
  | SocketOnMessage now data =>
      if LegionService.socketOpen s
      then LegionService.socket_onmessage s now data
      else (s, [])
  | OnMessage cb => (fst (LegionService.onMessage s cb), [])
  | OnTelemetryUpdate cb => (fst (LegionService.onTelemetryUpdate s cb), [])
  | UnsubscribeMessage => (LegionService.unsubscribeMessage s, [])
  | UnsubscribeTelemetry => (LegionService.unsubscribeTelemetry s, [])
  | SendCommand now plugin t p =>
      (s, LegionService.sendCommand s now plugin t p)
  | StartHeartbeat => LegionService.startHeartbeat s
  | StopHeartbeat => LegionService.stopHeartbeat s
  | IntervalTick sendNow now plugin =>
      match LegionService.heartbeatInterval s with
      | Some _ => LegionService.heartbeatTick s sendNow now plugin
      | None => (s, [])
      end
  | TimeoutLoopback m => (s, LegionService.loopback s m)
  end.

Fixpoint runCalls (s : LegionService.State MsgCb TelCb) (cs : list Call)
  : LegionService.State MsgCb TelCb
    * list (LegionService.Effect MsgCb TelCb) :=
  match cs with
  | [] => (s, [])
  | c :: r =>
      let '(s1, e1) := apply s c in
      let '(s2, e2) := runCalls s1 r in
      (s2, e1 ++ e2)
  end.

End Api.

Arguments Initialize {MsgCb TelCb}.
Arguments SocketOnOpen {MsgCb TelCb}.
Arguments SocketOnMessage {MsgCb TelCb}.
Arguments OnMessage {MsgCb TelCb}.
Arguments OnTelemetryUpdate {MsgCb TelCb}.
Arguments UnsubscribeMessage {MsgCb TelCb}.
Arguments UnsubscribeTelemetry {MsgCb TelCb}.
Arguments SendCommand {MsgCb TelCb}.
Arguments StartHeartbeat {MsgCb TelCb}.
Arguments StopHeartbeat {MsgCb TelCb}.
Arguments IntervalTick {MsgCb TelCb}.
Arguments TimeoutLoopback {MsgCb TelCb}.
Arguments apply {MsgCb TelCb}.
Arguments runCalls {MsgCb TelCb}.

End ServiceApi.

(** ** Vocabulary for statements about traces *)

Module Traces.

(** [alternates on off b l]: in [l] the events [on] and [off] alternate,
    starting from the state [b] ([true] after an [on]); the result is the
    state at the end. *)
Fixpoint alternates {A} (on off : A -> bool) (b : bool) (l : list A)
  : option bool :=
  match l with
  | [] => Some b
  | x :: r =>
      if on x then (if b then None else alternates on off true r)
      else if off x then (if b then alternates on off false r else None)
      else alternates on off b r
  end.

Definition isSome {A} (o : option A) : bool :=
  match o with Some _ => true | None => false end.

Definition isSetInterval {M T} (e : LegionService.Effect M T) : bool :=
  match e with LegionService.SetInterval _ => true | _ => false end.

Definition isClearInterval {M T} (e : LegionService.Effect M T) : bool :=
  match e with LegionService.ClearInterval _ => true | _ => false end.






(** The message an effect of the service puts on the wire or in the timer
    queue. *)
Definition carried {M T} (e : LegionService.Effect M T)
  : option LegionMessage :=
  match e with
  | LegionService.SocketSend m => Some m
  | LegionService.SetTimeout _ m => Some m
  | _ => None
  end.

(** The records of a device map are filed under their own [id] and carry the
    role the service gives them. *)
Definition filed (devs : JsMap.t DeviceTelemetry) : Prop :=
  JsMap.wf devs
  /\ Forall (fun kd => id (snd kd) = fst kd /\ role (snd kd) = CENTURION) devs.

(** A record of another node, carrying the field-node role. *)
Definition foreignFieldNode (own : string) (d : DeviceTelemetry) : Prop :=
  id d <> own /\ role d = CENTURION.

(** Every loopback in the timer queue carries the identity [own]. *)
Definition ownLoopbacks (own : string) (l : list (Z * System.Task)) : Prop :=
  Forall (fun t => match snd t with
                   | System.LoopbackTask m => senderId m = own
                   | System.DelayedStartTask => True
                   end) l.

(** What performing effects of the service that call no message observer
    adds to the timer queue, and what it shows. *)
Definition svcTimers (now : Z) (es : list System.SvcEffect)
  : list (Z * System.Task) :=
  flat_map (fun e => match e with
                     | LegionService.SetTimeout d m =>
                         [(now + d, System.LoopbackTask m)]
                     | _ => []
                     end) es.

Definition svcOutputs (es : list System.SvcEffect) : list System.Output :=
  flat_map (fun e => match e with
                     | LegionService.NewWebSocket u => [System.SocketCreated u]
                     | LegionService.SocketSend m => [System.Sent m]
                     | LegionService.PluginBroadcast t p proto =>
                         [System.Broadcast t p proto]
                     | LegionService.CallTelemetry cb ds =>
                         [System.TelemetryDelivered cb ds]
                     | LegionService.ConsoleError => [System.Logged]
                     | _ => []
                     end) es.

Definition callsObserver (e : System.SvcEffect) : bool :=
  match e with LegionService.CallMessage _ _ => true | _ => false end.

(** The same for effects of the capture layer, performed with the service
    [s]. *)
Definition camTimers (s : System.Svc) (plg : bool) (now : Z)
           (ces : list Camera.Effect) : list (Z * System.Task) :=
  flat_map (fun e => match e with
                     | Camera.SetTimeoutStart d =>
                         [(now + d, System.DelayedStartTask)]
                     | Camera.SendCommand t p =>
                         svcTimers now (LegionService.sendCommand s now plg t p)
                     | _ => []
                     end) ces.

Definition camOutputs (s : System.Svc) (plg : bool) (now : Z)
           (ces : list Camera.Effect) : list System.Output :=
  flat_map (fun e => match e with
                     | Camera.RecorderStart => [System.RecorderStarted]
                     | Camera.RecorderStop => [System.RecorderStopped]
                     | Camera.SendCommand t p =>
                         svcOutputs (LegionService.sendCommand s now plg t p)
                     | Camera.SetTimeoutStart _ => []
                     end) ces.

(** A message put on the socket carries the identity [own]. *)
Definition signed (own : string) (o : System.Output) : Prop :=
  match o with
  | System.Sent m => senderId m = own
  | _ => True
  end.

(** The message an effect carries, if it carries one, has the identity
    [own]. *)
Definition signedEffect {M T} (own : string) (e : LegionService.Effect M T)
  : Prop :=
  match carried e with
  | Some m => senderId m = own
  | None => True
  end.

(** Something leaves the node: a message on the socket, or a broadcast of the
    native plugin. *)
Definition isTransmission (o : System.Output) : bool :=
  match o with
  | System.Sent _ | System.Broadcast _ _ _ => true
  | _ => false
  end.

Definition isDelayedStart (t : Z * System.Task) : bool :=
  match snd t with
  | System.DelayedStartTask => true
  | System.LoopbackTask _ => false
  end.

Definition isSendCommand (e : Camera.Effect) : bool :=
  match e with Camera.SendCommand _ _ => true | _ => false end.

(** A turn the node takes for somebody else: a message arrives on the socket,
    or a closure of the timer queue runs. *)
Definition isRemoteTurn (ev : System.Event) : bool :=
  match ev with
  | System.SocketMessage _ | System.Timeout _ => true
  | _ => false
  end.

(** The timer queue a turn starts from, once the closure it runs is taken
    out. *)
Definition queueBefore (w : System.World) (ev : System.Event)
  : list (Z * System.Task) :=
  match ev with
  | System.Timeout i => System.removeNth i (System.timeouts w)
  | _ => System.timeouts w
  end.

(** From [a] to [b], showing [o]: the identity is kept, the loopbacks that
    wait are the node's own, and what goes on the socket is signed. *)
Definition keeps (own : string) (a : System.World) (o : list System.Output)
           (b : System.World) : Prop :=
  LegionService.deviceId (System.svc a) = own ->
  ownLoopbacks own (System.timeouts a) ->
  LegionService.deviceId (System.svc b) = own
  /\ ownLoopbacks own (System.timeouts b)
  /\ Forall (signed own) o.

(** An effect of the service that stays on the node. *)
Definition isLocalEffect {M T} (e : LegionService.Effect M T) : bool :=
  match e with
  | LegionService.SocketSend _ | LegionService.PluginBroadcast _ _ _
  | LegionService.SetTimeout _ _ => false
  | _ => true
  end.

(** From [a] to [b], showing [o]: nothing left the node, and the timer queue
    grew by guarded starts only. *)
Definition local (a : System.World) (o : list System.Output)
           (b : System.World) : Prop :=
  exists q,
    System.timeouts b = System.timeouts a ++ q
    /\ Forall (fun t => isDelayedStart t = true) q
    /\ Forall (fun x => isTransmission x = false) o.

End Traces.

(** * Properties *)

(** ** The device map *)

Module JsMapFacts.

Import JsMap.

Lemma delete_filter {V} (k : string) (m : t V) :
  delete k m = filter (fun kv => negb (String.eqb k (fst kv))) m.
Proof.
  induction m as [|[k' v'] r IH]; simpl; [reflexivity|].
  destruct (String.eqb k k'); simpl; [exact IH | now rewrite IH].
Qed.

Lemma keys_set_in {V} (k k0 : string) (v : V) (m : t V) :
  In k0 (keys (set k v m)) -> k0 = k \/ In k0 (keys m).
Proof.
  induction m as [|[k' v'] r IH]; simpl.
  - intros [H|[]]; auto.
  - destruct (String.eqb_spec k k') as [->|Hne]; simpl.
    + intros [H|H]; auto.
    + intros [H|H]; auto. destruct (IH H); auto.
Qed.

Lemma wf_set {V} (k : string) (v : V) (m : t V) :
  wf m -> wf (set k v m).
Proof.
  unfold wf. induction m as [|[k' v'] r IH]; simpl; intros Hnd.
  - constructor; [intros [] | constructor].
  - inversion Hnd as [|? ? Hnin Hr]; subst.
    destruct (String.eqb_spec k k') as [->|Hne]; simpl.
    + constructor; assumption.
    + constructor; [|now apply IH].
      intros Hin. destruct (keys_set_in _ _ _ _ Hin); [congruence|contradiction].
Qed.

Lemma keys_filter_in {V} (p : string * V -> bool) (m : t V) (k : string) :
  In k (keys (filter p m)) -> In k (keys m).
Proof.
  unfold keys. rewrite !in_map_iff. intros [x [Hx Hin]].
  apply filter_In in Hin. exists x. tauto.
Qed.

Lemma wf_filter {V} (p : string * V -> bool) (m : t V) :
  wf m -> wf (filter p m).
Proof.
  unfold wf. induction m as [|[k v] r IH]; simpl; intros Hnd; [constructor|].
  inversion Hnd as [|? ? Hnin Hr]; subst.
  destruct (p (k, v)); simpl; [|now apply IH].
  constructor; [|now apply IH].
  intros Hin. apply Hnin. eapply keys_filter_in. exact Hin.
Qed.

Lemma get_set_same {V} (k : string) (v : V) (m : t V) :
  get k (set k v m) = Some v.
Proof.
  induction m as [|[k' v'] r IH]; simpl.
  - now rewrite String.eqb_refl.
  - destruct (String.eqb k k') eqn:E; simpl.
    + now rewrite String.eqb_refl.
    + now rewrite E.
Qed.

Lemma get_set_other {V} (k k0 : string) (v : V) (m : t V) :
  k0 <> k -> get k0 (set k v m) = get k0 m.
Proof.
  intros Hne. induction m as [|[k' v'] r IH]; simpl.
  - destruct (String.eqb_spec k0 k); [contradiction|reflexivity].
  - destruct (String.eqb_spec k k') as [->|Hk]; simpl.
    + destruct (String.eqb_spec k0 k'); [contradiction|reflexivity].
    + destruct (String.eqb k0 k'); [reflexivity|exact IH].
Qed.

End JsMapFacts.

(** ** The service *)

Module ServiceFacts.

Import LegionService.

Section Generic.

Context {MsgCb TelCb : Type}.

Lemma sweepLoop_spec (now : Z) (entries : list (string * DeviceTelemetry)) :
  forall devs changed,
    sweepLoop now entries devs changed =
    (filter (fun kd =>
               negb (existsb (fun e => String.eqb (fst e) (fst kd)
                                       && expired now e) entries)) devs,
     changed || existsb (expired now) entries).
Proof.
  induction entries as [|[k d] rest IH]; intros devs changed; simpl.
  - f_equal.
    + induction devs as [|x r IHr]; simpl; [reflexivity | now rewrite <- IHr].
    + now rewrite orb_false_r.
  - assert (Hexp : expired now (k, d) = (now - lastPing d >? livenessTimeout))
      by reflexivity.
    rewrite Hexp.
    destruct (now - lastPing d >? livenessTimeout) eqn:E.
    + rewrite IH, JsMapFacts.delete_filter. f_equal.
      * clear. induction devs as [|x r IHr]; simpl; [reflexivity|].
        rewrite andb_true_r.
        destruct (String.eqb k (fst x)); simpl; [exact IHr|].
        destruct (existsb _ rest); simpl; [exact IHr | now rewrite IHr].
      * now rewrite orb_true_r.
    + rewrite IH. f_equal. apply filter_ext. intros x.
      now rewrite andb_false_r.
Qed.

Lemma existsb_own_key (now : Z) (devs : JsMap.t DeviceTelemetry) :
  JsMap.wf devs ->
  forall kd, In kd devs ->
    existsb (fun e => String.eqb (fst e) (fst kd) && expired now e) devs
    = expired now kd.
Proof.
  unfold JsMap.wf, JsMap.keys.
  induction devs as [|x r IH]; simpl; intros Hnd kd Hin; [contradiction|].
  inversion Hnd as [|? ? Hnin Hr]; subst.
  destruct Hin as [->|Hin].
  - rewrite String.eqb_refl. simpl.
    destruct (expired now kd) eqn:E; [reflexivity|].
    simpl. apply not_true_is_false. intros Hex.
    apply existsb_exists in Hex. destruct Hex as [e [He Hb]].
    apply andb_true_iff in Hb. destruct Hb as [Hk _].
    apply String.eqb_eq in Hk. apply Hnin. rewrite <- Hk.
    now apply in_map.
  - destruct (String.eqb_spec (fst x) (fst kd)) as [Hk|Hk].
    + exfalso. apply Hnin. rewrite Hk. now apply in_map.
    + simpl. now apply IH.
Qed.

(** On a well-formed map the sweep is a filter. *)
Lemma sweep_filter (now : Z) (devs : JsMap.t DeviceTelemetry) :
  JsMap.wf devs ->
  sweepLoop now devs devs false =
  (filter (fun kd => negb (expired now kd)) devs,
   existsb (expired now) devs).
Proof.
  intros Hwf. rewrite sweepLoop_spec. simpl. f_equal.
  apply filter_ext_in. intros kd Hin.
  now rewrite existsb_own_key.
Qed.

(** [sendCommand] performs no call of an observer. *)
Lemma sendCommand_effects (s : State MsgCb TelCb) now plugin t p :
  forall e, In e (sendCommand s now plugin t p) ->
    match e with
    | SocketSend _ | PluginBroadcast _ _ _ | SetTimeout _ _ => True
    | _ => False
    end.
Proof.
  unfold sendCommand. intros e.
  destruct (socketOpen s); [intros [<-|[]]; exact I|].
  destruct (role s) as [[|]|]; try contradiction.
  destruct plugin; simpl; intuition (subst; exact I).
Qed.

Lemma handleMessage_deviceId (s : State MsgCb TelCb) now msg :
  deviceId (fst (handleMessage s now msg)) = deviceId s.
Proof.
  unfold handleMessage.
  destruct (String.eqb _ _); [reflexivity|].
  destruct (type msg); reflexivity.
Qed.

Lemma handleMessage_wf (s : State MsgCb TelCb) now msg :
  JsMap.wf (devices s) -> JsMap.wf (devices (fst (handleMessage s now msg))).
Proof.
  intros Hwf. unfold handleMessage.
  destruct (String.eqb _ _); [exact Hwf|].
  destruct (type msg); simpl; try exact Hwf; now apply JsMapFacts.wf_set.
Qed.

Lemma heartbeatTick_wf (s : State MsgCb TelCb) sendNow now plugin :
  JsMap.wf (devices s) ->
  JsMap.wf (devices (fst (heartbeatTick s sendNow now plugin))).
Proof.
  intros Hwf. unfold heartbeatTick. rewrite sweep_filter by exact Hwf.
  simpl. now apply JsMapFacts.wf_filter.
Qed.

End Generic.

End ServiceFacts.

(** ** The event loop *)

Module SystemFacts.

Import System SystemSpec.

Lemma runList_inv {E} (P : World -> World -> Prop)
      (f : World -> E -> World * list Output) :
  (forall w, P w w) ->
  (forall a b c, P a b -> P b c -> P a c) ->
  (forall w e, P w (fst (f w e))) ->
  forall es w, P w (fst (runList f w es)).
Proof.
  intros Hrefl Htrans Hf es. induction es as [|e r IH]; intros w; simpl.
  - apply Hrefl.
  - specialize (Hf w e). destruct (f w e) as [w1 o1]. simpl in Hf.
    specialize (IH w1). destruct (runList f w1 r) as [w2 o2]. simpl in *.
    eapply Htrans; eassumption.
Qed.

Lemma subscribe_cleanup (s : Svc) : snd (subscribe s) = unsubscribe.
Proof. reflexivity. Qed.

Lemma same_svc_refl w : same_svc w w.
Proof. split; reflexivity. Qed.

Lemma same_svc_trans a b c : same_svc a b -> same_svc b c -> same_svc a c.
Proof. unfold same_svc. intros [H1 H2] [H3 H4]. split; congruence. Qed.

Lemma execCamWith_svc ex now :
  (forall w e, same_svc w (fst (ex w e))) ->
  forall w e, same_svc w (fst (execCamWith ex now w e)).
Proof.
  intros Hex w [| |t p|d]; simpl; try (split; reflexivity).
  apply runList_inv;
    [exact same_svc_refl | exact same_svc_trans | exact Hex].
Qed.

(** Performing an effect never writes the service: only the functions of the
    service do. *)
Lemma exec_svc depth now : forall w e, same_svc w (fst (exec depth now w e)).
Proof.
  induction depth as [|d IH]; intros w e; destruct e as [u|m|t p pr|[] m|cb ds|dl m|h|h|];
    simpl; try (split; reflexivity).
  destruct (Camera.onLegionMessage _ _ _ m) as [c ces].
  pose proof (runList_inv same_svc (execCamWith (exec d now) now)
                same_svc_refl same_svc_trans
                (execCamWith_svc _ now IH) ces (set_cam w c)) as H.
  destruct (runList _ (set_cam w c) ces) as [w' o]. simpl in *. exact H.
Qed.

Lemma runService_svc now w es w' out :
  runService now w es = (w', out) -> svc w' = svc w.
Proof.
  intros H. unfold runService in H.
  pose proof (runList_inv same_svc (exec stackDepth now)
                same_svc_refl same_svc_trans (exec_svc _ now) es w) as Hs.
  rewrite H in Hs. apply Hs.
Qed.

Lemma runCamera_svc now w es w' out :
  runCamera now w es = (w', out) -> svc w' = svc w.
Proof.
  intros H. unfold runCamera in H.
  pose proof (runList_inv same_svc (execCamWith (exec stackDepth now) now)
                same_svc_refl same_svc_trans
                (execCamWith_svc _ now (exec_svc _ now)) es w) as Hs.
  rewrite H in Hs. apply Hs.
Qed.

Lemma step_svc w now ev w1 out :
  step w now ev = Some (w1, out) -> svc w1 = svcAfter w now ev.
Proof.
  destruct ev; simpl; intros H.
  - destruct (LegionService.initialize _ _ _ _ _) as [[s es] o].
    destruct (runService now (set_svc w s) es) as [w' o'] eqn:E.
    inversion H; subst. now rewrite (runService_svc _ _ _ _ _ E).
  - now inversion H.
  - destruct legion, (Camera.legionRole (cam w)); now inversion H.
  - destruct (Camera.legionRole (cam w)) as [[|]|]; now inversion H.
  - destruct (LegionService.socket (svc w)) as [[u [] proto]|]; try discriminate.
    destruct (LegionService.socket_onopen _ _ _ _) as [s es].
    destruct (runService now (set_svc w s) es) as [w' o'] eqn:E.
    inversion H; subst. now rewrite (runService_svc _ _ _ _ _ E).
  - destruct (LegionService.socketOpen (svc w)); try discriminate.
    destruct (LegionService.socket_onmessage _ _ _) as [s es].
    destruct (runService now (set_svc w s) es) as [w' o'] eqn:E.
    inversion H; subst. now rewrite (runService_svc _ _ _ _ _ E).
  - destruct (LegionService.socket (svc w)) as [[u rs proto]|]; now inversion H.
  - destruct (LegionService.heartbeatInterval (svc w)); try discriminate.
    destruct (LegionService.heartbeatTick _ _ _ _) as [s es].
    destruct (runService now (set_svc w s) es) as [w' o'] eqn:E.
    inversion H; subst. now rewrite (runService_svc _ _ _ _ _ E).
  - destruct (nth_error (timeouts w) i) as [[due [m|]]|]; try discriminate;
      destruct (due <=? now); try discriminate.
    + inversion H as [E]. now rewrite (runService_svc _ _ _ _ _ E).
    + destruct (Camera.delayedStart _) as [c ces].
      inversion H as [E]. now rewrite (runCamera_svc _ _ _ _ _ E).
  - destruct (Camera.handleShutterAction _ _) as [c ces].
    inversion H as [E]. now rewrite (runCamera_svc _ _ _ _ _ E).
  - destruct (Camera.legionRole (cam w)) as [[|]|]; try discriminate.
    inversion H as [E]. now rewrite (runCamera_svc _ _ _ _ _ E).
  - destruct (Camera.legionRole (cam w)) as [[|]|]; try discriminate.
    inversion H as [E]. now rewrite (runCamera_svc _ _ _ _ _ E).
  - now inversion H.
Qed.

Lemma svcAfter_deviceId w now ev :
  LegionService.deviceId (svcAfter w now ev) = LegionService.deviceId (svc w).
Proof.
  destruct ev; simpl; try reflexivity.
  - unfold LegionService.initialize, LegionService.stopHeartbeat,
      LegionService.startHeartbeat.
    destruct (svc w) as [sk rl pr did off mcb tcb [h|] devs]; simpl;
      destruct (LegionRole_eqb r CENTURION && truthy targetIp);
      try destruct ctorOk; reflexivity.
  - unfold setLegionMode. destruct (Camera.isLegionMode (cam w)); reflexivity.
  - unfold setLegionMode.
    destruct (Camera.isLegionMode (cam w)), legion; reflexivity.
  - destruct (LegionService.socket (svc w)) as [[u rs proto]|]; [|reflexivity].
    unfold LegionService.socket_onopen, LegionService.startHeartbeat. simpl.
    destruct (LegionService.heartbeatInterval (svc w)); reflexivity.
  - destruct data as [m|]; [|reflexivity].
    apply ServiceFacts.handleMessage_deviceId.
  - destruct (LegionService.socket (svc w)) as [[u rs proto]|]; reflexivity.
  - unfold LegionService.heartbeatTick.
    destruct (LegionService.sweepLoop _ _ _ _). reflexivity.
Qed.

Lemma svcAfter_syncOffset w now ev :
  isSyncSample (LegionService.deviceId (svc w)) ev = false ->
  LegionService.syncOffset (svcAfter w now ev)
  = LegionService.syncOffset (svc w).
Proof.
  destruct ev; simpl; intros Hs; try reflexivity.
  - unfold LegionService.initialize, LegionService.stopHeartbeat,
      LegionService.startHeartbeat.
    destruct (svc w) as [sk rl pr did off mcb tcb [h|] devs]; simpl;
      destruct (LegionRole_eqb r CENTURION && truthy targetIp);
      try destruct ctorOk; reflexivity.
  - unfold setLegionMode. destruct (Camera.isLegionMode (cam w)); reflexivity.
  - unfold setLegionMode.
    destruct (Camera.isLegionMode (cam w)), legion; reflexivity.
  - destruct (LegionService.socket (svc w)) as [[u rs proto]|]; [|reflexivity].
    unfold LegionService.socket_onopen, LegionService.startHeartbeat. simpl.
    destruct (LegionService.heartbeatInterval (svc w)); reflexivity.
  - destruct data as [m|]; [|reflexivity]. simpl.
    unfold LegionService.handleMessage.
    destruct (String.eqb (senderId m) _); [reflexivity|].
    simpl in Hs. destruct (type m); simpl in Hs; try discriminate; reflexivity.
  - destruct (LegionService.socket (svc w)) as [[u rs proto]|]; reflexivity.
  - unfold LegionService.heartbeatTick.
    destruct (LegionService.sweepLoop _ _ _ _). reflexivity.
Qed.

(** The stack bound of [exec] is never reached: the listener dispatches
    nothing, and a dispatch calls no observer. *)
Lemma runList_outputs {E} (P : Output -> Prop)
      (f : World -> E -> World * list Output) (es : list E) :
  (forall w e, In e es -> forall o, In o (snd (f w e)) -> P o) ->
  forall w o, In o (snd (runList f w es)) -> P o.
Proof.
  induction es as [|e r IH]; intros Hf w o; simpl; [contradiction|].
  pose proof (Hf w e (or_introl eq_refl)) as He.
  destruct (f w e) as [w1 o1].
  pose proof (IH (fun w' e' Hin => Hf w' e' (or_intror Hin)) w1) as Hr.
  destruct (runList f w1 r) as [w2 o2]. simpl in *.
  intros Hin. apply in_app_or in Hin. destruct Hin; auto.
Qed.

Lemma exec_no_RangeError d now w e :
  ~ In RangeError (snd (exec (S d) now w e)).
Proof.
  destruct e as [u|m|t p pr|[] m|cb ds|dl m|h|h|]; simpl;
    try (intros [H|[]]; discriminate H); try (intros []).
  unfold Camera.onLegionMessage, Camera.stopRecording.
  destruct (String.eqb _ _); simpl; [intros [H|[]]; discriminate H|].
  destruct (type m); simpl; try (intros [H|[]]; discriminate H).
  destruct (Camera.isRecording (cam w)); simpl;
    [destruct (Camera.mediaRecorder (cam w)); simpl|];
    intros H; repeat (destruct H as [H|H]; try discriminate H);
    contradiction.
Qed.

Lemma runService_no_RangeError now w es :
  ~ In RangeError (snd (runService now w es)).
Proof.
  unfold runService, stackDepth. intros H.
  apply (runList_outputs (fun o => o <> RangeError) _ es) in H;
    [now apply H|].
  intros w' e _ o Ho ->. exact (exec_no_RangeError _ now w' e Ho).
Qed.

Lemma runCamera_no_RangeError now w es :
  ~ In RangeError (snd (runCamera now w es)).
Proof.
  unfold runCamera. intros H.
  apply (runList_outputs (fun o => o <> RangeError) _ es) in H;
    [now apply H|].
  intros w' e _ o Ho ->. destruct e; simpl in Ho;
    try (destruct Ho as [Ho|[]]; discriminate Ho); try contradiction.
  exact (runService_no_RangeError now w' _ Ho).
Qed.

Lemma step_no_RangeError w now ev w1 out :
  step w now ev = Some (w1, out) -> ~ In RangeError out.
Proof.
  destruct ev; simpl; intros H.
  - destruct (LegionService.initialize _ _ _ _ _) as [[s es] o].
    pose proof (runService_no_RangeError now (set_svc w s) es) as Hn.
    destruct (runService now (set_svc w s) es) as [w' o']. inversion H; subst.
    intros Hin. apply in_app_or in Hin.
    destruct Hin as [Hin|[Hin|[]]]; [now apply Hn | discriminate Hin].
  - inversion H. intros [].
  - destruct legion, (Camera.legionRole (cam w)); inversion H; intros [].
  - destruct (Camera.legionRole (cam w)) as [[|]|]; inversion H; intros [].
  - destruct (LegionService.socket (svc w)) as [[u [] proto]|]; try discriminate.
    destruct (LegionService.socket_onopen _ _ _ _) as [s es].
    pose proof (runService_no_RangeError now (set_svc w s) es) as Hn.
    inversion H as [E]. now rewrite E in Hn.
  - destruct (LegionService.socketOpen (svc w)); try discriminate.
    destruct (LegionService.socket_onmessage _ _ _) as [s es].
    pose proof (runService_no_RangeError now (set_svc w s) es) as Hn.
    inversion H as [E]. now rewrite E in Hn.
  - destruct (LegionService.socket (svc w)) as [[u rs proto]|];
      inversion H; intros [].
  - destruct (LegionService.heartbeatInterval (svc w)); try discriminate.
    destruct (LegionService.heartbeatTick _ _ _ _) as [s es].
    pose proof (runService_no_RangeError now (set_svc w s) es) as Hn.
    inversion H as [E]. now rewrite E in Hn.
  - destruct (nth_error (timeouts w) i) as [[due [m|]]|]; try discriminate;
      destruct (due <=? now); try discriminate.
    + match type of H with
      | Some (runService ?n ?w0 ?es) = _ =>
          pose proof (runService_no_RangeError n w0 es) as Hn
      end.
      inversion H as [E]. now rewrite E in Hn.
    + destruct (Camera.delayedStart _) as [c ces].
      match type of H with
      | Some (runCamera ?n ?w0 ?es) = _ =>
          pose proof (runCamera_no_RangeError n w0 es) as Hn
      end.
      inversion H as [E]. now rewrite E in Hn.
  - destruct (Camera.handleShutterAction _ _) as [c ces].
    pose proof (runCamera_no_RangeError now (set_cam w c) ces) as Hn.
    inversion H as [E]. now rewrite E in Hn.
  - destruct (Camera.legionRole (cam w)) as [[|]|]; try discriminate.
    pose proof (runCamera_no_RangeError now w Dashboard.handleGlobalStart) as Hn.
    inversion H as [E]. now rewrite E in Hn.
  - destruct (Camera.legionRole (cam w)) as [[|]|]; try discriminate.
    pose proof (runCamera_no_RangeError now w Dashboard.handleGlobalStop) as Hn.
    inversion H as [E]. now rewrite E in Hn.
  - inversion H. intros [].
Qed.

End SystemFacts.

(** ** Runs of the event loop *)

Module RunFacts.

Import System SystemSpec SystemFacts.

Lemma run_cons w now ev r w2 out :
  run w ((now, ev) :: r) = Some (w2, out) ->
  exists w1 o1 o2,
    step w now ev = Some (w1, o1) /\ run w1 r = Some (w2, o2)
    /\ out = o1 ++ o2.
Proof.
  simpl. destruct (step w now ev) as [[w1 o1]|]; [|discriminate].
  destruct (run w1 r) as [[w2' o2]|] eqn:Er; [|discriminate].
  intros H. inversion H; subst. exists w1, o1, o2.
  split; [reflexivity | split; [exact Er | reflexivity]].
Qed.

(** Between two samples the clock offset and the identity stay as they
    are. *)
Lemma run_keeps_offset (ownId : string) :
  forall evs w w2 out,
    LegionService.deviceId (svc w) = ownId ->
    Forall (fun e => isSyncSample ownId (snd e) = false) evs ->
    run w evs = Some (w2, out) ->
    LegionService.syncOffset (svc w2) = LegionService.syncOffset (svc w)
    /\ LegionService.deviceId (svc w2) = ownId.
Proof.
  induction evs as [|[now ev] r IH]; intros w w2 out Hid Hall Hrun.
  - simpl in Hrun. inversion Hrun; subst. auto.
  - apply run_cons in Hrun. destruct Hrun as [w1 [o1 [o2 [Hs [Hr _]]]]].
    inversion Hall as [|? ? Hev Hrest]; subst. simpl in Hev.
    apply step_svc in Hs.
    assert (Hid1 : LegionService.deviceId (svc w1) = LegionService.deviceId (svc w))
      by (rewrite Hs; apply svcAfter_deviceId).
    assert (Hoff : LegionService.syncOffset (svc w1)
                   = LegionService.syncOffset (svc w))
      by (rewrite Hs; apply svcAfter_syncOffset; exact Hev).
    destruct (IH w1 w2 o2 Hid1 Hrest Hr) as [H1 H2].
    split; congruence.
Qed.

Lemma svcAfter_no_socket w now ev :
  LegionService.socket (svc w) = None ->
  opensSocket ev = false ->
  LegionService.socket (svcAfter w now ev) = None.
Proof.
  intros Hn Ho. destruct ev; simpl in *; try exact Hn.
  - unfold LegionService.initialize, LegionService.stopHeartbeat,
      LegionService.startHeartbeat.
    rewrite Ho.
    destruct (svc w) as [sk rl pr did off mcb tcb [h|] devs]; simpl in *;
      exact Hn.
  - unfold setLegionMode. destruct (Camera.isLegionMode (cam w)); exact Hn.
  - unfold setLegionMode.
    destruct (Camera.isLegionMode (cam w)), legion; exact Hn.
  - now rewrite Hn.
  - destruct data as [m|]; [|exact Hn]. simpl.
    unfold LegionService.handleMessage.
    destruct (String.eqb _ _); [exact Hn|].
    destruct (type m); exact Hn.
  - now rewrite Hn.
  - unfold LegionService.heartbeatTick.
    destruct (LegionService.sweepLoop _ _ _ _). exact Hn.
Qed.

Lemma step_no_socket w now ev w1 out :
  LegionService.socket (svc w) = None ->
  opensSocket ev = false ->
  step w now ev = Some (w1, out) ->
  LegionService.socket (svc w1) = None
  /\ LegionService.syncOffset (svc w1) = LegionService.syncOffset (svc w).
Proof.
  intros Hn Ho Hs. pose proof (step_svc _ _ _ _ _ Hs) as E. split.
  - rewrite E. now apply svcAfter_no_socket.
  - rewrite E. apply svcAfter_syncOffset.
    destruct ev; try reflexivity.
    exfalso. simpl in Hs. unfold LegionService.socketOpen in Hs.
    rewrite Hn in Hs. discriminate.
Qed.

Lemma run_no_socket :
  forall evs w w2 out,
    LegionService.socket (svc w) = None ->
    Forall (fun e => opensSocket (snd e) = false) evs ->
    run w evs = Some (w2, out) ->
    LegionService.socket (svc w2) = None
    /\ LegionService.syncOffset (svc w2) = LegionService.syncOffset (svc w).
Proof.
  induction evs as [|[now ev] r IH]; intros w w2 out Hn Hall Hrun.
  - simpl in Hrun. inversion Hrun; subst. auto.
  - apply run_cons in Hrun. destruct Hrun as [w1 [o1 [o2 [Hs [Hr _]]]]].
    inversion Hall as [|? ? Hev Hrest]; subst. simpl in Hev.
    destruct (step_no_socket _ _ _ _ _ Hn Hev Hs) as [Hn1 Ho1].
    destruct (IH w1 w2 o2 Hn1 Hrest Hr) as [H1 H2].
    split; congruence.
Qed.

End RunFacts.

(** * Properties of the specification *)

Import LegionService System SystemSpec SystemFacts RunFacts Scenarios.

(** ** Observer registration *)

(** C10.  The service holds one message observer and one telemetry observer.
    Registering a callback with [onMessage] or [onTelemetryUpdate] replaces
    the one registered before, so that a received message and a loopback are
    delivered to the newest callback only; and each unsubscribe function these
    methods return clears the callback registered at the time it is invoked,
    also when that callback was registered after the unsubscribe function was
    created. *)
Theorem C10_single_observer_unsubscribe_clears_current :
  forall (MsgCb TelCb : Type) (s : State MsgCb TelCb)
         (cb1 cb2 : MsgCb) (t1 t2 : TelCb),
    let s1 := fst (onMessage s cb1) in
    let unsub1 := snd (onMessage s cb1) in
    let s2 := fst (onMessage s1 cb2) in
    let u1 := fst (onTelemetryUpdate s t1) in
    let unsubT1 := snd (onTelemetryUpdate s t1) in
    let u2 := fst (onTelemetryUpdate u1 t2) in
    onMessageCallback s1 = Some cb1
    /\ onMessageCallback s2 = Some cb2
    /\ (forall now msg cb m,
           In (CallMessage cb m) (snd (handleMessage s2 now msg)) ->
           cb = cb2 /\ m = msg)
    /\ (forall msg, loopback s2 msg = [CallMessage cb2 msg])
    /\ onMessageCallback (unsub1 s2) = None
    /\ (forall s', onMessageCallback (unsub1 s') = None
                   /\ onTelemetryCallback (unsub1 s') = onTelemetryCallback s')
    /\ onTelemetryCallback u1 = Some t1
    /\ onTelemetryCallback u2 = Some t2
    /\ notifyTelemetry u2 = [CallTelemetry t2 (getConnectedDevices u2)]
    /\ onTelemetryCallback (unsubT1 u2) = None
    /\ (forall s', onTelemetryCallback (unsubT1 s') = None
                   /\ onMessageCallback (unsubT1 s') = onMessageCallback s').
Proof.
  intros MsgCb TelCb s cb1 cb2 t1 t2. simpl.
  repeat split; try reflexivity.
  - unfold handleMessage, notifyTelemetry in H.
    destruct (String.eqb (senderId msg) _); simpl in H; [contradiction|].
    destruct (type msg); simpl in H;
      destruct (onTelemetryCallback s); simpl in H;
      repeat (destruct H as [H|H]; try contradiction; try discriminate H);
      congruence.
  - unfold handleMessage, notifyTelemetry in H.
    destruct (String.eqb (senderId msg) _); simpl in H; [contradiction|].
    destruct (type msg); simpl in H;
      destruct (onTelemetryCallback s); simpl in H;
      repeat (destruct H as [H|H]; try contradiction; try discriminate H);
      congruence.
Qed.

(** ** Membership *)

Lemma sendCommand_no_telemetry {MsgCb TelCb : Type} (s : State MsgCb TelCb)
      now plugin t p cb ds :
  ~ In (CallTelemetry cb ds) (sendCommand s now plugin t p).
Proof.
  intros H. exact (ServiceFacts.sendCommand_effects s now plugin t p _ H).
Qed.

(** C7.  The sweep runs in the callback of the heartbeat interval, which
    [startHeartbeat] installs with a period of 5000 ms: each tick first emits
    the heartbeat and then sweeps.  A sweep at time [now] keeps exactly the
    records with [now - lastPing <= 15000], in their order, and removes the
    others; the tick calls [notifyTelemetry] if and only if a record was
    removed, so that a registered telemetry observer is notified by the tick
    exactly in that case. *)
Theorem C7_sweep_removes_exactly_expired :
  forall (MsgCb TelCb : Type) (s : State MsgCb TelCb)
         (sendNow now : Z) (plugin : bool),
    JsMap.wf (devices s) ->
    let s' := fst (heartbeatTick s sendNow now plugin) in
    let es := snd (heartbeatTick s sendNow now plugin) in
    let removed :=
      existsb (fun kd => now - lastPing (snd kd) >? 15000) (devices s) in
    (forall s0 : State MsgCb TelCb,
        heartbeatInterval s0 = None ->
        startHeartbeat s0
        = (set_heartbeatInterval s0 (Some (mkInterval 5000)),
           [SetInterval (mkInterval 5000)]))
    /\ es = sendCommand s sendNow plugin HEARTBEAT (Some (heartbeatPayload s))
            ++ (if removed then notifyTelemetry s' else [])
    /\ devices s'
       = filter (fun kd => negb (now - lastPing (snd kd) >? 15000)) (devices s)
    /\ (forall kd, In kd (devices s') <->
                   In kd (devices s) /\ now - lastPing (snd kd) <= 15000)
    /\ (removed = true <->
        exists kd, In kd (devices s) /\ ~ In kd (devices s'))
    /\ (forall cb, onTelemetryCallback s = Some cb ->
          ((exists ds, In (CallTelemetry cb ds) es) <-> removed = true))
    /\ (forall cb ds, In (CallTelemetry cb ds) es ->
          removed = true /\ ds = JsMap.values (devices s')).
Proof.
  intros MsgCb TelCb s sendNow now plugin Hwf s' es removed.
  assert (Hdev : devices s'
     = filter (fun kd => negb (now - lastPing (snd kd) >? 15000)) (devices s)).
  { unfold s', heartbeatTick.
    rewrite (ServiceFacts.sweep_filter now (devices s) Hwf). reflexivity. }
  assert (Hes : es = sendCommand s sendNow plugin HEARTBEAT
                       (Some (heartbeatPayload s))
                     ++ (if removed then notifyTelemetry s' else [])).
  { unfold es, s', removed, heartbeatTick.
    rewrite (ServiceFacts.sweep_filter now (devices s) Hwf). reflexivity. }
  assert (Hin : forall kd, In kd (devices s') <->
                   In kd (devices s) /\ now - lastPing (snd kd) <= 15000).
  { intros kd. rewrite Hdev, filter_In, negb_true_iff.
    destruct (Z.gtb_spec (now - lastPing (snd kd)) 15000); split;
      intros [H1 H2]; split; auto; try lia; discriminate. }
  split; [|split; [exact Hes|split; [exact Hdev|split; [exact Hin|split; [|split]]]]].
  - intros s0 H0. unfold startHeartbeat. now rewrite H0.
  - unfold removed. rewrite existsb_exists. split.
    + intros [kd [Hk Hgt]]. exists kd. split; [exact Hk|].
      rewrite Hin. intros [_ Hle].
      apply Z.gtb_lt in Hgt. lia.
    + intros [kd [Hk Hn]]. exists kd. split; [exact Hk|].
      apply Z.gtb_lt. rewrite Hin in Hn.
      destruct (Z_le_gt_dec (now - lastPing (snd kd)) 15000); [|lia].
      exfalso. apply Hn. split; assumption.
  - intros cb Hcb. rewrite Hes. split.
    + intros [ds Hds]. apply in_app_or in Hds. destruct Hds as [Hds|Hds].
      * exfalso. exact (sendCommand_no_telemetry _ _ _ _ _ _ _ Hds).
      * destruct removed; [reflexivity|contradiction].
    + intros Hr. rewrite Hr. exists (JsMap.values (devices s')).
      apply in_or_app. right. unfold notifyTelemetry.
      assert (Hcb' : onTelemetryCallback s' = Some cb).
      { unfold s', heartbeatTick.
        destruct (sweepLoop _ _ _ _). exact Hcb. }
      rewrite Hcb'. now left.
  - intros cb ds Hds. rewrite Hes in Hds.
    apply in_app_or in Hds. destruct Hds as [Hds|Hds].
    + exfalso. exact (sendCommand_no_telemetry _ _ _ _ _ _ _ Hds).
    + destruct removed; [|contradiction]. split; [reflexivity|].
      unfold notifyTelemetry in Hds.
      destruct (onTelemetryCallback s'); [|contradiction].
      destruct Hds as [Hds|[]]. congruence.
Qed.

Lemma c7_state_wf : JsMap.wf (devices c7_state).
Proof.
  unfold JsMap.wf. simpl.
  constructor; [intros [H|[]]; discriminate H|].
  constructor; [intros []|constructor].
Qed.

(** The sweep at 20000 of a map with records last seen at 1000 and at 9000:
    the first is removed, the second is kept, the observer is notified. *)
Lemma C7_witness :
  JsMap.wf (devices c7_state)
  /\ JsMap.keys (devices (fst (heartbeatTick c7_state 20000 20000 false)))
     = ["b"].
Proof.
  split; [exact c7_state_wf|].
  exact (eq_trans
           (f_equal JsMap.keys
              (proj1 (proj2 (proj2
                 (C7_sweep_removes_exactly_expired unit unit c7_state
                    20000 20000 false c7_state_wf)))))
           eq_refl).
Defined.

(** C2, as stated, fails: a heartbeat of an unknown sender creates no record;
    heartbeats of a sender known from its handshake leave its [lastPing] at
    the time of the handshake; and the sweep at 15020, ten milliseconds after
    the last heartbeat was handled, removes the sender. *)
Lemma C2_counterexample :
  getConnectedDevices (fst (handleMessage c2_commander 1010 (c2_heartbeat 1000)))
  = []
  /\ map lastPing (getConnectedDevices c2_after_heartbeats) = [10]
  /\ getConnectedDevices
       (fst (heartbeatTick c2_after_heartbeats 15020 15020 false)) = [].
Proof. repeat split; reflexivity. Qed.

(** C2, amended.  For a received message of another sender whose kind is
    [HANDSHAKE] or [TELEMETRY] the service upserts the record of the sender,
    with [lastPing] the local receipt time, leaves the other records as they
    are and notifies the telemetry observer.  A message of any other kind
    leaves the device map as it is and notifies no telemetry observer; a
    [HEARTBEAT] in particular only overwrites the clock offset and is
    forwarded to the message observer. *)
Theorem C2_only_handshake_and_telemetry_are_tracked :
  forall (MsgCb TelCb : Type) (s : State MsgCb TelCb) (now : Z)
         (msg : LegionMessage),
    senderId msg <> deviceId s ->
    let s' := fst (handleMessage s now msg) in
    let es := snd (handleMessage s now msg) in
    (type msg = HANDSHAKE \/ type msg = TELEMETRY ->
     devices s' = JsMap.set (senderId msg) (deviceOf msg now) (devices s)
     /\ JsMap.get (senderId msg) (devices s') = Some (deviceOf msg now)
     /\ lastPing (deviceOf msg now) = now
     /\ id (deviceOf msg now) = senderId msg
     /\ (forall k, k <> senderId msg ->
                   JsMap.get k (devices s') = JsMap.get k (devices s))
     /\ (forall cb, onTelemetryCallback s = Some cb ->
                    In (CallTelemetry cb (getConnectedDevices s')) es))
    /\ (type msg <> HANDSHAKE -> type msg <> TELEMETRY ->
        devices s' = devices s
        /\ forall cb ds, ~ In (CallTelemetry cb ds) es)
    /\ (type msg = HEARTBEAT ->
        devices s' = devices s
        /\ syncOffset s' = now - timestamp msg
        /\ es = match onMessageCallback s with
                | Some cb => [CallMessage cb msg]
                | None => []
                end).
Proof.
  intros MsgCb TelCb s now msg Hne. simpl.
  unfold handleMessage, notifyTelemetry, getConnectedDevices.
  destruct (String.eqb_spec (senderId msg) (deviceId s)); [contradiction|].
  split; [|split].
  - intros Ht.
    destruct Ht as [Ht|Ht]; rewrite Ht; simpl;
      (split; [reflexivity|]);
      (split; [apply JsMapFacts.get_set_same|]);
      (split; [reflexivity|]); (split; [reflexivity|]);
      (split; [intros k Hk; now apply JsMapFacts.get_set_other|]);
      intros cb Hcb; rewrite Hcb; simpl; now left.
  - intros H1 H2.
    destruct (type msg); try contradiction; simpl;
      (split; [reflexivity|]);
      intros cb ds H; destruct (onMessageCallback s); simpl in H;
      repeat (destruct H as [H|H]; try discriminate H); contradiction.
  - intros Ht. rewrite Ht. simpl. repeat split.
Qed.

(** A commander handles the heartbeat of a field node at 1010: the map is
    as before, empty. *)
Lemma C2_witness :
  senderId (c2_heartbeat 1000) <> deviceId c2_commander
  /\ devices (fst (handleMessage c2_commander 1010 (c2_heartbeat 1000)))
     = devices c2_commander.
Proof.
  assert (Hne : senderId (c2_heartbeat 1000) <> deviceId c2_commander)
    by (intros H; discriminate H).
  split; [exact Hne|].
  exact (proj1 (proj2 (proj2
           (C2_only_handshake_and_telemetry_are_tracked unit unit
              c2_commander 1010 (c2_heartbeat 1000) Hne))
           eq_refl)).
Defined.

(** ** Initialization *)



(** ** Dispatch *)

Lemma removeNth_last {A} (l : list A) (x : A) :
  removeNth (List.length l) (l ++ [x]) = l.
Proof.
  unfold removeNth.
  rewrite firstn_app, firstn_all, Nat.sub_diag, firstn_O, app_nil_r.
  rewrite skipn_all2; [apply app_nil_r|].
  rewrite length_app. simpl. lia.
Qed.

Lemma nth_error_last {A} (l : list A) (x : A) :
  nth_error (l ++ [x]) (List.length l) = Some x.
Proof.
  rewrite nth_error_app2 by lia. now rewrite Nat.sub_diag.
Qed.

(** The effects of a dispatch by a commander that has no open socket. *)
Lemma sendCommand_commander {MsgCb TelCb : Type} (s : State MsgCb TelCb)
      now plugin t p :
  role s = Some LEGATUS -> socketOpen s = false ->
  sendCommand s now plugin t p
  = (if plugin then [PluginBroadcast t p (protocol s)] else [])
    ++ [SetTimeout 0 (mkMessage t now (deviceId s) p)].
Proof.
  intros Hr Ho. unfold sendCommand. now rewrite Ho, Hr.
Qed.

(** The turn of a dispatch by a commander, in the application. *)
Lemma dispatch_commander (w : World) now t p :
  role (svc w) = Some LEGATUS -> socketOpen (svc w) = false ->
  runCamera now w [Camera.SendCommand t p]
  = (addTimeout w now 0
       (LoopbackTask (mkMessage t now (deviceId (svc w)) p)),
     if plugin w then [Broadcast t p (protocol (svc w))] else []).
Proof.
  intros Hr Ho. unfold runCamera. simpl.
  rewrite (sendCommand_commander _ now (plugin w) t p Hr Ho).
  destruct (plugin w); reflexivity.
Qed.

(** C9.  [sendCommand] performs no call of the message observer, in any state
    and whatever the role.  On a commander without an open socket it hands the
    loopback to [setTimeout] with delay 0 as its last effect; in the
    application the turn that dispatches therefore shows no invocation of the
    observer and leaves one more closure in the timer queue, and the observer
    registered then is invoked with the message in the later turn in which
    that closure runs. *)
Theorem C9_dispatch_never_calls_observer_synchronously :
  forall (w : World) (now : Z) (t : MsgType) (p : option Payload),
    role (svc w) = Some LEGATUS ->
    socketOpen (svc w) = false ->
    let msg := mkMessage t now (deviceId (svc w)) p in
    let w1 := fst (runCamera now w [Camera.SendCommand t p]) in
    let out := snd (runCamera now w [Camera.SendCommand t p]) in
    (forall (MsgCb TelCb : Type) (s : State MsgCb TelCb) now' plugin' t' p'
            cb m,
        ~ In (CallMessage cb m) (sendCommand s now' plugin' t' p'))
    /\ (forall m, ~ In (Observed m) out)
    /\ timeouts w1 = timeouts w ++ [(now + 0, LoopbackTask msg)]
    /\ svc w1 = svc w /\ cam w1 = cam w
    /\ (forall now', now + 0 <= now' ->
          forall w2 out2,
            step w1 now' (Timeout (List.length (timeouts w))) = Some (w2, out2) ->
            match onMessageCallback (svc w) with
            | Some _ => exists rest, out2 = Observed msg :: rest
            | None => out2 = []
            end)
    /\ (forall now', now + 0 <= now' ->
          exists w2 out2,
            step w1 now' (Timeout (List.length (timeouts w))) = Some (w2, out2)).
Proof.
  intros w now t p Hr Ho msg w1 out.
  unfold w1, out. rewrite (dispatch_commander w now t p Hr Ho). simpl.
  split; [|split; [|split; [|split; [|split; [|split]]]]]; try reflexivity.
  - intros MsgCb TelCb s now' plugin' t' p' cb m H.
    exact (ServiceFacts.sendCommand_effects s now' plugin' t' p' _ H).
  - intros m. destruct (plugin w); simpl; intuition discriminate.
  - intros now' Hle w2 out2. unfold step. simpl timeouts.
    rewrite nth_error_last.
    destruct (now + 0 <=? now') eqn:E; [|discriminate].
    simpl svc. unfold loopback, runService. simpl.
    destruct (onMessageCallback (svc w)) as [[]|]; simpl.
    + destruct (Camera.onLegionMessage _ _ _ _) as [c ces].
      destruct (runList _ _ ces) as [w' o'].
      intros H. inversion H; subst. exists (o' ++ []). reflexivity.
    + intros H. now inversion H.
  - intros now' Hle. unfold step. simpl timeouts.
    rewrite nth_error_last.
    apply Z.leb_le in Hle. rewrite Hle.
    destruct (runService _ _ _) as [w2 out2]. now exists w2, out2.
Qed.

(** The dashboard's stop on a commander: nothing is observed in the turn of
    the dispatch. *)
Lemma C9_witness :
  role (svc c9_commander) = Some LEGATUS
  /\ socketOpen (svc c9_commander) = false
  /\ forall m,
      ~ In (Observed m)
           (snd (runCamera 100 c9_commander [Camera.SendCommand STOP_REC None])).
Proof.
  split; [reflexivity|]. split; [reflexivity|].
  exact (proj1 (proj2
           (C9_dispatch_never_calls_observer_synchronously
              c9_commander 100 STOP_REC None eq_refl eq_refl))).
Defined.

(** ** Clock synchronization *)

Lemma handleMessage_sample {MsgCb TelCb : Type} (s : State MsgCb TelCb)
      (R : Z) (msg : LegionMessage) :
  senderId msg <> deviceId s ->
  type msg = SYNC \/ type msg = HEARTBEAT ->
  syncOffset (fst (handleMessage s R msg)) = R - timestamp msg.
Proof.
  intros Hne Ht. unfold handleMessage.
  destruct (String.eqb_spec (senderId msg) (deviceId s)); [contradiction|].
  destruct Ht as [-> | ->]; reflexivity.
Qed.

(** C5.  When a [SYNC] or [HEARTBEAT] of another sender, with timestamp [T],
    is handled at local time [R], the clock offset becomes [R - T] whatever it
    was before; and through every later sequence of turns in which no such
    message arrives it stays [R - T], so that [getSynchronizedTime] returns
    the local clock minus [R - T]. *)
Theorem C5_offset_is_last_sample :
  forall (w : World) (R : Z) (msg : LegionMessage) (w1 : World)
         (out : list Output),
    senderId msg <> deviceId (svc w) ->
    type msg = SYNC \/ type msg = HEARTBEAT ->
    step w R (SocketMessage (Some msg)) = Some (w1, out) ->
    svc w1 = fst (handleMessage (svc w) R msg)
    /\ syncOffset (svc w1) = R - timestamp msg
    /\ forall evs w2 out2,
        Forall (fun e => isSyncSample (deviceId (svc w)) (snd e) = false) evs ->
        run w1 evs = Some (w2, out2) ->
        syncOffset (svc w2) = R - timestamp msg
        /\ forall now,
            getSynchronizedTime (svc w2) now = now - (R - timestamp msg).
Proof.
  intros w R msg w1 out Hne Ht Hstep.
  pose proof (step_svc _ _ _ _ _ Hstep) as Hs. simpl in Hs.
  pose proof (handleMessage_sample (svc w) R msg Hne Ht) as Hoff.
  rewrite <- Hs in Hoff.
  split; [exact Hs|]. split; [exact Hoff|].
  intros evs w2 out2 Hall Hrun.
  assert (Hid : deviceId (svc w1) = deviceId (svc w))
    by (rewrite Hs; apply ServiceFacts.handleMessage_deviceId).
  destruct (run_keeps_offset (deviceId (svc w)) evs w1 w2 out2 Hid Hall Hrun)
    as [Hk _].
  split; [congruence|].
  intros now. unfold getSynchronizedTime. rewrite Hk, Hoff. reflexivity.
Qed.

(** A field node whose offset was 7 handles a [SYNC] stamped 1000 at local
    time 1250: the offset is 250. *)
Lemma C5_witness :
  senderId c5_sync <> deviceId (svc c5_field_node)
  /\ syncOffset (svc c5_after) = 250.
Proof.
  assert (Hne : senderId c5_sync <> deviceId (svc c5_field_node))
    by (intros H; discriminate H).
  split; [exact Hne|].
  exact (proj1 (proj2
           (C5_offset_is_last_sample c5_field_node 1250 c5_sync c5_after
              [Observed c5_sync] Hne (or_introl eq_refl) eq_refl))).
Defined.

(** C6, as stated, fails: a node that was a field node, took a [SYNC], and is
    then initialized with the commander role holds the offset of that sample,
    and the next message on the socket it still has moves the offset again.
    [handleMessage] itself does not look at the role: on a commander it takes
    the heartbeat of a field node as a sample. *)
Lemma C6_counterexample :
  option_map
    (fun r => (role (svc (fst r)), syncOffset (svc (fst r)),
               getSynchronizedTime (svc (fst r)) 5000))
    (run (boot "node" false)
         [(0, Initialize CENTURION WIFI (Some "10.0.0.1") true);
          (20, SocketOpened);
          (100, SocketMessage (Some (mkMessage SYNC 0 "cmdr" None)));
          (200, Initialize LEGATUS WIFI None true)])
  = Some (Some LEGATUS, 100, 4900)
  /\ option_map
       (fun r => (role (svc (fst r)), syncOffset (svc (fst r))))
       (run (boot "node" false)
          [(0, Initialize CENTURION WIFI (Some "10.0.0.1") true);
           (20, SocketOpened);
           (100, SocketMessage (Some (mkMessage SYNC 0 "cmdr" None)));
           (200, Initialize LEGATUS WIFI None true);
           (5300, SocketMessage (Some (mkMessage HEARTBEAT 5000 "cmdr" None)))])
     = Some (Some LEGATUS, 300)
  /\ role c2_commander = Some LEGATUS
  /\ syncOffset (fst (handleMessage c2_commander 1010 (c2_heartbeat 1000)))
     = 10.
Proof. repeat split; reflexivity. Qed.

(** C6, amended.  On a node that has never been initialized as a field node
    with a target address (so in particular on a node that has only been
    initialized with the commander role) the service has no socket, no
    received message is ever handled, and the clock offset is 0 after every
    sequence of turns: dispatches, their loopbacks, heartbeat ticks, observer
    registrations and further initializations do not write it.
    [getSynchronizedTime] then returns the local clock. *)
Theorem C6_offset_zero_without_socket :
  forall (uuid : string) (hasPlugin : bool) (evs : list (Z * Event))
         (w : World) (out : list Output),
    Forall (fun e => opensSocket (snd e) = false) evs ->
    run (boot uuid hasPlugin) evs = Some (w, out) ->
    socket (svc w) = None
    /\ syncOffset (svc w) = 0
    /\ forall now, getSynchronizedTime (svc w) now = now.
Proof.
  intros uuid hasPlugin evs w out Hall Hrun.
  destruct (run_no_socket evs (boot uuid hasPlugin) w out eq_refl Hall Hrun)
    as [Hn Ho].
  simpl in Ho. repeat split; try assumption.
  intros now. unfold getSynchronizedTime. rewrite Ho. lia.
Qed.

(** A commander that starts and stops the fleet and emits a heartbeat: every
    dispatch loops back, and the offset is 0 at the end. *)
Lemma C6_witness :
  role (svc c6_commander) = Some LEGATUS
  /\ syncOffset (svc c6_commander) = 0.
Proof.
  split; [reflexivity|].
  assert (Hall : Forall (fun e => opensSocket (snd e) = false) c6_trace)
    by (repeat constructor).
  exact (proj1 (proj2
           (C6_offset_zero_without_socket "cmdr" true c6_trace c6_commander
              c6_outputs Hall eq_refl))).
Defined.

(** ** The remote trigger *)



(** The loopback of a message the node sent itself reaches the listener, which
    drops it. *)
Lemma loopback_own_ignored (w : World) (i : nat) (due now : Z)
      (m : LegionMessage) :
  nth_error (timeouts w) i = Some (due, LoopbackTask m) ->
  due <= now ->
  senderId m = deviceId (svc w) ->
  step w now (Timeout i)
  = Some (set_timeouts w (removeNth i (timeouts w)),
          match onMessageCallback (svc w) with
          | Some _ => [Observed m]
          | None => []
          end).
Proof.
  intros Hn Hd Hs. unfold step. rewrite Hn.
  apply Z.leb_le in Hd. rewrite Hd.
  unfold loopback, runService. simpl.
  destruct (onMessageCallback (svc w)) as [[]|]; simpl; [|reflexivity].
  unfold Camera.onLegionMessage, getDeviceId. simpl.
  rewrite Hs, String.eqb_refl. reflexivity.
Qed.






(** The shutter on a commander that has a stream and is not recording. *)
Lemma shutter_commander (w : World) (now : Z) :
  role (svc w) = Some LEGATUS ->
  socketOpen (svc w) = false ->
  Camera.isCommander (cam w) = true ->
  Camera.stream (cam w) = true ->
  Camera.isRecording (cam w) = false ->
  step w now (Shutter false)
  = Some (addTimeout
            (set_cam w (Camera.mkCamera (Camera.stream (cam w)) true true
                          (Camera.isLegionMode (cam w))
                          (Camera.legionRole (cam w))))
            now 0
            (LoopbackTask (mkMessage START_REC now (deviceId (svc w))
                             (Some (Camera.delayPayload 500)))),
          RecorderStarted ::
          (if plugin w
           then [Broadcast START_REC (Some (Camera.delayPayload 500))
                           (protocol (svc w))]
           else [])).
Proof.
  intros Hr Ho Hc Hs Hrec.
  unfold step, Camera.handleShutterAction, Camera.startRecording.
  rewrite Hrec, Hs, Hc. simpl.
  unfold runCamera. simpl.
  rewrite (sendCommand_commander _ now (plugin w) START_REC
             (Some (Camera.delayPayload 500)) Hr Ho).
  destruct (plugin w); reflexivity.
Qed.

(** C1, as stated, fails.  On a commander the shutter begins the recording in
    the turn of the dispatch, before the [START_REC] leaves; the loopback of
    that message is observed in a later turn and schedules nothing.  The
    global start of the dashboard dispatches a [START_REC] with another lead,
    1000; its loopback schedules nothing either, and the commander does not
    record. *)
Lemma C1_counterexample :
  option_map snd (run (boot "cmdr" true) (firstn 4 c1_shutter_trace))
  = Some [Settled Resolved; RecorderStarted;
          Broadcast START_REC (Some (Camera.delayPayload 500)) WIFI]
  /\ option_map (fun r => (timeouts (fst r), snd r))
                (run (boot "cmdr" true) c1_shutter_trace)
     = Some ([],
             [Settled Resolved; RecorderStarted;
              Broadcast START_REC (Some (Camera.delayPayload 500)) WIFI;
              Observed (mkMessage START_REC 10 "cmdr"
                          (Some (Camera.delayPayload 500)))])
  /\ option_map (fun r => (timeouts (fst r),
                           Camera.isRecording (cam (fst r)), snd r))
                (run (boot "cmdr" true) c1_dashboard_trace)
     = Some ([], false,
             [Settled Resolved;
              Broadcast START_REC (Some (Camera.delayPayload 1000)) WIFI;
              Observed (mkMessage START_REC 10 "cmdr"
                          (Some (Camera.delayPayload 1000)))]).
Proof. repeat split; reflexivity. Qed.

(** C1, amended.  On a commander in Legion mode that has a stream, is not
    recording and has no open socket, the shutter begins the local recording
    in the turn of the dispatch and then dispatches [START_REC] with a lead of
    500 ms, which queues the loopback for a later turn.  When the loopback
    runs, the listener finds its own identity in the message and returns: no
    start is scheduled, no recording begins, and the world is as the dispatch
    left it, less the loopback closure.  The listener drops every message
    that carries the node's own identity. *)
Theorem C1_commander_records_at_dispatch_and_drops_loopback :
  forall (w : World) (now : Z),
    role (svc w) = Some LEGATUS ->
    socketOpen (svc w) = false ->
    Camera.isCommander (cam w) = true ->
    Camera.stream (cam w) = true ->
    Camera.isRecording (cam w) = false ->
    let msg := mkMessage START_REC now (deviceId (svc w))
                         (Some (Camera.delayPayload 500)) in
    (exists w1,
        step w now (Shutter false)
        = Some (w1,
                RecorderStarted ::
                (if plugin w
                 then [Broadcast START_REC (Some (Camera.delayPayload 500))
                                 (protocol (svc w))]
                 else []))
        /\ Camera.isRecording (cam w1) = true
        /\ timeouts w1 = timeouts w ++ [(now + 0, LoopbackTask msg)]
        /\ forall now', now + 0 <= now' ->
             step w1 now' (Timeout (List.length (timeouts w)))
             = Some (set_timeouts w1 (timeouts w),
                     match onMessageCallback (svc w) with
                     | Some _ => [Observed msg]
                     | None => []
                     end))
    /\ (forall (syncNow : Z) (c : Camera.State) (m : LegionMessage),
           senderId m = deviceId (svc w) ->
           Camera.onLegionMessage (getDeviceId (svc w)) syncNow c m = (c, [])).
Proof.
  intros w now Hr Ho Hc Hs Hrec msg. split.
  - eexists. split; [exact (shutter_commander w now Hr Ho Hc Hs Hrec)|].
    split; [reflexivity|]. split; [reflexivity|].
    intros now' Hle.
    erewrite loopback_own_ignored;
      [|simpl; apply nth_error_last | exact Hle | reflexivity].
    simpl. rewrite removeNth_last. reflexivity.
  - intros syncNow c m Hm. unfold Camera.onLegionMessage, getDeviceId.
    now rewrite Hm, String.eqb_refl.
Qed.

Lemma C1_witness :
  Camera.isCommander (cam c1_commander) = true
  /\ forall (syncNow : Z) (c : Camera.State) (m : LegionMessage),
      senderId m = deviceId (svc c1_commander) ->
      Camera.onLegionMessage (getDeviceId (svc c1_commander)) syncNow c m
      = (c, []).
Proof.
  split; [reflexivity|].
  exact (proj2
           (C1_commander_records_at_dispatch_and_drops_loopback
              c1_commander 10 eq_refl eq_refl eq_refl eq_refl eq_refl)).
Defined.

(** * Further properties *)

(** ** The address check *)

Module RegexFacts.

Import Regex.

Lemma append_assoc (a b c : string) :
  ((a ++ b) ++ c = a ++ (b ++ c))%string.
Proof. induction a as [|x a IH]; simpl; [reflexivity | now rewrite IH]. Qed.

Lemma nullable_spec (r : re) : nullable r = true <-> lang r "".
Proof.
  induction r as [| |p|a IHa b IHb|a IHa b IHb]; simpl.
  - split; [discriminate|contradiction].
  - split; reflexivity.
  - split; [discriminate|]. intros [c [H _]]. discriminate H.
  - rewrite andb_true_iff, IHa, IHb. split.
    + intros [Ha Hb]. exists "", "". auto.
    + intros [s1 [s2 [E [Ha Hb]]]].
      destruct s1; [|discriminate E]. destruct s2; [|discriminate E]. auto.
  - rewrite orb_true_iff, IHa, IHb. tauto.
Qed.

Lemma deriv_spec (c : ascii) (r : re) :
  forall s, lang (deriv c r) s <-> lang r (String c s).
Proof.
  induction r as [| |p|a IHa b IHb|a IHa b IHb]; intros s; simpl.
  - tauto.
  - split; [contradiction|discriminate].
  - destruct (p c) eqn:E; simpl; split.
    + intros ->. now exists c.
    + intros [c' [H _]]. now inversion H.
    + contradiction.
    + intros [c' [H Hp]]. inversion H; subst. congruence.
  - split.
    + intros [[s1 [s2 [E [H1 H2]]]]|H].
      * exists (String c s1), s2. subst. rewrite IHa in H1. auto.
      * destruct (nullable a) eqn:N; [|contradiction].
        exists "", (String c s). rewrite IHb in H.
        apply nullable_spec in N. auto.
    + intros [s1 [s2 [E [H1 H2]]]]. destruct s1 as [|c1 s1].
      * right. simpl in E. subst s2.
        apply nullable_spec in H1. rewrite H1. now apply IHb.
      * left. simpl in E. inversion E; subst.
        exists s1, s2. rewrite IHa. auto.
  - rewrite IHa, IHb. tauto.
Qed.

(** The test by derivatives decides the language. *)
Lemma test_spec (r : re) (s : string) : test r s = true <-> lang r s.
Proof.
  revert r. induction s as [|c s IH]; intros r; simpl.
  - apply nullable_spec.
  - rewrite IH. apply deriv_spec.
Qed.

Lemma lang_digit (s : string) :
  lang (Class digit) s <-> exists c, s = String c "" /\ digit c = true.
Proof. reflexivity. Qed.

Lemma lang_octet (s : string) :
  lang (Rep13 (Class digit)) s <-> octet s = true.
Proof.
  unfold Rep13, Opt. simpl. split.
  - intros [s1 [s2 [E [[a [-> Ha]] H2]]]]. subst s. simpl.
    destruct H2 as [-> | [s3 [s4 [E [[b [-> Hb]] H4]]]]]; [exact Ha|].
    subst s2. simpl.
    destruct H4 as [-> | [c [-> Hc]]]; simpl; now rewrite Ha, Hb, ?Hc.
  - destruct s as [|a [|b [|c [|d s]]]]; simpl; try discriminate.
    + intros Ha. exists (String a ""), "". repeat split; eauto.
    + intros H. apply andb_true_iff in H. destruct H as [Ha Hb].
      exists (String a ""), (String b ""). repeat split; eauto.
      right. exists (String b ""), "". repeat split; eauto.
    + intros H. apply andb_true_iff in H. destruct H as [H Hc].
      apply andb_true_iff in H. destruct H as [Ha Hb].
      exists (String a ""), (String b (String c "")). repeat split; eauto.
      right. exists (String b ""), (String c ""). repeat split; eauto.
Qed.

Lemma lang_group (s : string) :
  lang (Cat (Rep13 (Class digit)) (Class dot)) s
  <-> exists a, s = (a ++ ".")%string /\ octet a = true.
Proof.
  change (lang (Cat (Rep13 (Class digit)) (Class dot)) s)
    with (exists s1 s2, s = (s1 ++ s2)%string
                        /\ lang (Rep13 (Class digit)) s1
                        /\ lang (Class dot) s2).
  split.
  - intros [s1 [s2 [E [H1 [c [-> Hc]]]]]]. exists s1.
    apply lang_octet in H1. split; [|exact H1].
    unfold dot in Hc. apply Ascii.eqb_eq in Hc. now subst.
  - intros [a [E Ha]]. exists a, ".". split; [exact E|].
    split; [now apply lang_octet|]. now exists "."%char.
Qed.

End RegexFacts.

(** X1.  The address check of the dialog accepts exactly the strings made of
    four groups of one to three decimal digits joined by single dots.  The
    value of a group is not looked at. *)
Theorem X1_ip_regex_accepts_dotted_digit_groups :
  forall s : string,
    Regex.test LegionHUD.ipRegex s = true
    <-> exists a b c d,
          s = (a ++ "." ++ b ++ "." ++ c ++ "." ++ d)%string
          /\ Regex.octet a = true /\ Regex.octet b = true
          /\ Regex.octet c = true /\ Regex.octet d = true.
Proof.
  intros s. rewrite RegexFacts.test_spec. unfold LegionHUD.ipRegex, Regex.Rep3.
  change (Regex.lang
            (Regex.Cat
               (Regex.Cat ?g (Regex.Cat ?g ?g)) ?o) s)
    with (exists s1 s2, s = (s1 ++ s2)%string
            /\ (exists t1 t2, s1 = (t1 ++ t2)%string /\ Regex.lang g t1
                  /\ exists u1 u2, t2 = (u1 ++ u2)%string
                                   /\ Regex.lang g u1 /\ Regex.lang g u2)
            /\ Regex.lang o s2).
  split.
  - intros [s1 [s2 [E [[t1 [t2 [E1 [G1 [u1 [u2 [E2 [G2 G3]]]]]]]] O]]]].
    apply RegexFacts.lang_group in G1, G2, G3.
    destruct G1 as [a [-> Ha]], G2 as [b [-> Hb]], G3 as [c [-> Hc]].
    apply RegexFacts.lang_octet in O.
    exists a, b, c, s2. subst.
    repeat split; try assumption.
    now rewrite !RegexFacts.append_assoc.
  - intros [a [b [c [d [E [Ha [Hb [Hc Hd]]]]]]]].
    exists ((a ++ ".") ++ (b ++ ".") ++ (c ++ "."))%string, d.
    split; [subst; now rewrite !RegexFacts.append_assoc|].
    split; [|now apply RegexFacts.lang_octet].
    exists (a ++ ".")%string, ((b ++ ".") ++ (c ++ "."))%string.
    split; [reflexivity|].
    split; [apply RegexFacts.lang_group; eauto|].
    exists (b ++ ".")%string, (c ++ ".")%string.
    split; [reflexivity|].
    split; apply RegexFacts.lang_group; eauto.
Qed.

(** ** Sequences of calls of the service *)

Module ApiFacts.

Import LegionService ServiceApi Traces.

Lemma alternates_app {A} (on off : A -> bool) (l1 l2 : list A) :
  forall b,
    alternates on off b (l1 ++ l2)
    = match alternates on off b l1 with
      | Some b' => alternates on off b' l2
      | None => None
      end.
Proof.
  induction l1 as [|x r IH]; intros b; simpl; [reflexivity|].
  destruct (on x); [destruct b; [reflexivity | apply IH]|].
  destruct (off x); [destruct b; [apply IH | reflexivity]|]. apply IH.
Qed.

Lemma alternates_silent {A} (on off : A -> bool) (l : list A) (b : bool) :
  (forall x, In x l -> on x = false /\ off x = false) ->
  alternates on off b l = Some b.
Proof.
  induction l as [|x r IH]; intros H; simpl; [reflexivity|].
  destruct (H x (or_introl eq_refl)) as [-> ->].
  apply IH. intros y Hy. apply H. now right.
Qed.

Section Generic.

Context {MsgCb TelCb : Type}.

Lemma sendCommand_silent (s : State MsgCb TelCb) now plugin t p :
  forall e, In e (sendCommand s now plugin t p) ->
            isSetInterval e = false /\ isClearInterval e = false.
Proof.
  intros e He. pose proof (ServiceFacts.sendCommand_effects s now plugin t p e He).
  destruct e; try contradiction; auto.
Qed.

Lemma notifyTelemetry_silent (s : State MsgCb TelCb) :
  forall e, In e (notifyTelemetry s) ->
            isSetInterval e = false /\ isClearInterval e = false.
Proof.
  unfold notifyTelemetry. intros e.
  destruct (onTelemetryCallback s); [intros [<-|[]]; auto | intros []].
Qed.

Lemma handleMessage_interval (s : State MsgCb TelCb) now msg :
  heartbeatInterval (fst (handleMessage s now msg)) = heartbeatInterval s
  /\ forall e, In e (snd (handleMessage s now msg)) ->
               isSetInterval e = false /\ isClearInterval e = false.
Proof.
  unfold handleMessage, notifyTelemetry.
  destruct (String.eqb _ _); simpl; [split; [reflexivity | intros e []]|].
  destruct (type msg); simpl;
    (split; [reflexivity|]); intros e He;
    destruct (onTelemetryCallback s), (onMessageCallback s); simpl in He;
    repeat (destruct He as [He|He]; [subst e; auto|]); contradiction.
Qed.

Lemma heartbeatTick_interval (s : State MsgCb TelCb) sendNow now plugin :
  heartbeatInterval (fst (heartbeatTick s sendNow now plugin))
  = heartbeatInterval s
  /\ forall e, In e (snd (heartbeatTick s sendNow now plugin)) ->
               isSetInterval e = false /\ isClearInterval e = false.
Proof.
  unfold heartbeatTick. destruct (sweepLoop _ _ _ _) as [devs changed].
  simpl. split; [reflexivity|]. intros e He.
  apply in_app_or in He. destruct He as [He|He].
  - exact (sendCommand_silent _ _ _ _ _ e He).
  - destruct changed; [|contradiction].
    exact (notifyTelemetry_silent _ e He).
Qed.

(** What one call does to the heartbeat interval and what it tells the
    browser about it agree. *)
Lemma apply_interval (s : State MsgCb TelCb) (c : Call MsgCb TelCb) :
  alternates isSetInterval isClearInterval (isSome (heartbeatInterval s))
             (snd (apply s c))
  = Some (isSome (heartbeatInterval (fst (apply s c)))).
Proof.
  destruct c as [r proto ip ctorOk | now plg | now data | cb | cb | | | now plg t p | | | sendNow now plg | m];
    simpl; try reflexivity.
  - unfold initialize, stopHeartbeat, startHeartbeat.
    destruct s as [sk rl pr did off mcb tcb [h|] devs]; simpl;
      destruct (LegionRole_eqb r CENTURION && truthy ip);
      try destruct ctorOk; reflexivity.
  - destruct (socket s) as [[u rs proto]|]; [|reflexivity].
    unfold socket_onopen, startHeartbeat.
    set (s0 := set_socket s (Some (mkSocket u OPEN proto))).
    change (heartbeatInterval s) with (heartbeatInterval s0).
    destruct (heartbeatInterval s0) eqn:E; simpl; [|reflexivity].
    change (heartbeatInterval s) with (heartbeatInterval s0).
    now rewrite E.
  - destruct (socketOpen s); [|reflexivity].
    destruct data as [msg|]; simpl; [|reflexivity].
    destruct (handleMessage_interval s now msg) as [H1 H2].
    now rewrite H1, (alternates_silent _ _ _ _ H2).
  - apply alternates_silent. apply sendCommand_silent.
  - unfold startHeartbeat.
    destruct (heartbeatInterval s) eqn:E; simpl; rewrite ?E; reflexivity.
  - unfold stopHeartbeat.
    destruct (heartbeatInterval s) eqn:E; simpl; rewrite ?E; reflexivity.
  - destruct (heartbeatInterval s) eqn:E; simpl; [|now rewrite E].
    destruct (heartbeatTick_interval s sendNow now plg) as [H1 H2].
    now rewrite H1, E, (alternates_silent _ _ _ _ H2).
  - apply alternates_silent. unfold loopback. intros e.
    destruct (onMessageCallback s); [intros [<-|[]]; auto | intros []].
Qed.

Lemma apply_deviceId (s : State MsgCb TelCb) (c : Call MsgCb TelCb) :
  deviceId (fst (apply s c)) = deviceId s.
Proof.
  destruct c as [r proto ip ctorOk | now plg | now data | cb | cb | | | now plg t p | | | sendNow now plg | m];
    simpl; try reflexivity.
  - unfold initialize, stopHeartbeat, startHeartbeat.
    destruct s as [sk rl pr did off mcb tcb [h|] devs]; simpl;
      destruct (LegionRole_eqb r CENTURION && truthy ip);
      try destruct ctorOk; reflexivity.
  - destruct (socket s) as [[u rs proto]|]; [|reflexivity].
    unfold socket_onopen, startHeartbeat. simpl.
    destruct (heartbeatInterval s); reflexivity.
  - destruct (socketOpen s); [|reflexivity].
    destruct data as [msg|]; [|reflexivity].
    apply ServiceFacts.handleMessage_deviceId.
  - unfold startHeartbeat. destruct (heartbeatInterval s); reflexivity.
  - unfold stopHeartbeat. destruct (heartbeatInterval s); reflexivity.
  - destruct (heartbeatInterval s); [|reflexivity].
    unfold heartbeatTick. destruct (sweepLoop _ _ _ _). reflexivity.
Qed.

End Generic.

End ApiFacts.

(** X2.  The service never runs two heartbeat intervals.  Through every
    sequence of calls of its methods and of its callbacks, the [setInterval]
    and [clearInterval] it performs alternate: an interval is installed only
    when none is installed, and cleared only when one is, so that the handle
    the service holds at the end is that of the one interval still running,
    if any. *)
Theorem X2_heartbeat_interval_never_doubled :
  forall (MsgCb TelCb : Type) (cs : list (ServiceApi.Call MsgCb TelCb))
         (s : State MsgCb TelCb),
    Traces.alternates Traces.isSetInterval Traces.isClearInterval
      (Traces.isSome (heartbeatInterval s)) (snd (ServiceApi.runCalls s cs))
    = Some (Traces.isSome (heartbeatInterval (fst (ServiceApi.runCalls s cs)))).
Proof.
  intros MsgCb TelCb cs. induction cs as [|c r IH]; intros s; simpl.
  - reflexivity.
  - pose proof (ApiFacts.apply_interval s c) as Hc.
    destruct (ServiceApi.apply s c) as [s1 e1].
    specialize (IH s1). destruct (ServiceApi.runCalls s1 r) as [s2 e2].
    simpl in *. now rewrite ApiFacts.alternates_app, Hc.
Qed.

(** ** The device list *)

Module DeviceFacts.

Import LegionService ServiceApi Traces.

Lemma Forall_set {V} (P : string * V -> Prop) (k : string) (v : V)
      (m : JsMap.t V) :
  P (k, v) -> Forall P m -> Forall P (JsMap.set k v m).
Proof.
  intros Hk. induction m as [|[k' v'] r IH]; simpl; intros H.
  - constructor; [exact Hk | constructor].
  - inversion H as [|? ? Hx Hr]; subst.
    destruct (String.eqb k k'); constructor; auto.
Qed.

Lemma Forall_filter {A} (P : A -> Prop) (p : A -> bool) (l : list A) :
  Forall P l -> Forall P (filter p l).
Proof.
  induction l as [|x r IH]; simpl; intros H; [constructor|].
  inversion H; subst. destruct (p x); [constructor|]; auto.
Qed.

Lemma get_notin {V} (k : string) (m : JsMap.t V) :
  ~ In k (JsMap.keys m) -> JsMap.get k m = None.
Proof.
  induction m as [|[k' v'] r IH]; simpl; intros H; [reflexivity|].
  destruct (String.eqb_spec k k') as [->|Hne]; [exfalso; auto|].
  apply IH. intros Hin. apply H. now right.
Qed.

(** Lookup after a filter, on a map with one entry per key. *)
Lemma get_filter {V} (p : string * V -> bool) (k : string) (m : JsMap.t V) :
  JsMap.wf m ->
  JsMap.get k (filter p m)
  = match JsMap.get k m with
    | Some v => if p (k, v) then Some v else None
    | None => None
    end.
Proof.
  unfold JsMap.wf. induction m as [|[k' v'] r IH]; simpl; intros Hnd;
    [reflexivity|].
  inversion Hnd as [|? ? Hnin Hr]; subst.
  destruct (String.eqb_spec k k') as [->|Hne].
  - destruct (p (k', v')) eqn:E; simpl.
    + now rewrite String.eqb_refl.
    + apply get_notin. intros Hin. apply Hnin.
      eapply JsMapFacts.keys_filter_in. exact Hin.
  - destruct (p (k', v')); simpl.
    + destruct (String.eqb_spec k k'); [contradiction | now apply IH].
    + now apply IH.
Qed.

Lemma keys_set {V} (k : string) (v : V) (m : JsMap.t V) :
  JsMap.keys (JsMap.set k v m)
  = match JsMap.get k m with
    | Some _ => JsMap.keys m
    | None => JsMap.keys m ++ [k]
    end.
Proof.
  induction m as [|[k' v'] r IH]; simpl; [reflexivity|].
  destruct (String.eqb_spec k k') as [->|Hne]; simpl; [reflexivity|].
  rewrite IH. destruct (JsMap.get k r); reflexivity.
Qed.

Lemma filter_filter_imp {A} (p q : A -> bool) (l : list A) :
  (forall x, q x = true -> p x = true) ->
  filter q (filter p l) = filter q l.
Proof.
  intros H. induction l as [|x r IH]; simpl; [reflexivity|].
  destruct (p x) eqn:Ep; simpl.
  - now rewrite IH.
  - destruct (q x) eqn:Eq; [|exact IH].
    apply H in Eq. congruence.
Qed.

Section Generic.

Context {MsgCb TelCb : Type}.

(** The device map is filed, and holds no record of the node itself. *)
Definition tidy (s : State MsgCb TelCb) : Prop :=
  filed (devices s)
  /\ Forall (fun kd => fst kd <> deviceId s) (devices s).

Lemma tidy_devices (s s' : State MsgCb TelCb) :
  devices s' = devices s -> deviceId s' = deviceId s -> tidy s -> tidy s'.
Proof. unfold tidy. intros -> ->. auto. Qed.

Lemma handleMessage_tidy (s : State MsgCb TelCb) now msg :
  tidy s -> tidy (fst (handleMessage s now msg)).
Proof.
  intros Ht. pose proof Ht as [[Hwf Hf] Hn]. unfold handleMessage.
  destruct (String.eqb_spec (senderId msg) (deviceId s)) as [|Hne];
    [exact Ht|].
  destruct (type msg); simpl; try exact Ht;
    (split; [split|]); simpl;
    try (now apply JsMapFacts.wf_set);
    try (apply Forall_set; [simpl; auto | assumption]).
Qed.

Lemma heartbeatTick_tidy (s : State MsgCb TelCb) sendNow now plg :
  tidy s -> tidy (fst (heartbeatTick s sendNow now plg)).
Proof.
  intros [[Hwf Hf] Hn]. unfold heartbeatTick.
  rewrite (ServiceFacts.sweep_filter now (devices s) Hwf). simpl.
  split; [split|]; simpl.
  - now apply JsMapFacts.wf_filter.
  - now apply Forall_filter.
  - now apply Forall_filter.
Qed.

Lemma apply_tidy (s : State MsgCb TelCb) (c : Call MsgCb TelCb) :
  tidy s -> tidy (fst (apply s c)).
Proof.
  intros Ht.
  destruct c as [r proto ip ctorOk | now plg | now data | cb | cb | |
                 | now plg t p | | | sendNow now plg | m];
    simpl; try exact Ht.
  - apply (tidy_devices s); [| |exact Ht];
      unfold initialize, stopHeartbeat, startHeartbeat;
      destruct s as [sk rl pr did off mcb tcb [h|] devs]; simpl;
      destruct (LegionRole_eqb r CENTURION && truthy ip);
      try destruct ctorOk; reflexivity.
  - destruct (socket s) as [[u rs proto]|]; [|exact Ht].
    apply (tidy_devices s); [| |exact Ht];
      unfold socket_onopen, startHeartbeat; simpl;
      destruct (heartbeatInterval s); reflexivity.
  - destruct (socketOpen s); [|exact Ht].
    destruct data as [msg|]; [|exact Ht].
    now apply handleMessage_tidy.
  - apply (tidy_devices s); [| |exact Ht];
      unfold startHeartbeat; destruct (heartbeatInterval s); reflexivity.
  - apply (tidy_devices s); [| |exact Ht];
      unfold stopHeartbeat; destruct (heartbeatInterval s); reflexivity.
  - destruct (heartbeatInterval s); [|exact Ht].
    now apply heartbeatTick_tidy.
Qed.

Lemma runCalls_tidy (cs : list (Call MsgCb TelCb)) :
  forall s, tidy s ->
            tidy (fst (runCalls s cs))
            /\ deviceId (fst (runCalls s cs)) = deviceId s.
Proof.
  induction cs as [|c r IH]; intros s Ht; simpl; [auto|].
  pose proof (apply_tidy s c Ht) as H1.
  pose proof (ApiFacts.apply_deviceId s c) as H2.
  destruct (apply s c) as [s1 e1]. simpl in *.
  destruct (IH s1 H1) as [H3 H4].
  destruct (runCalls s1 r) as [s2 e2]. simpl in *.
  split; [exact H3 | congruence].
Qed.

End Generic.

End DeviceFacts.

(** X3.  Whatever sequence of calls a freshly created service goes through,
    its device list never shows an identity twice, never shows the node
    itself, and every record in it carries the field-node role. *)
Theorem X3_device_list_distinct_and_foreign :
  forall (MsgCb TelCb : Type) (uuid : string)
         (cs : list (ServiceApi.Call MsgCb TelCb)),
    let s := fst (ServiceApi.runCalls (create uuid) cs) in
    NoDup (map id (getConnectedDevices s))
    /\ Forall (Traces.foreignFieldNode uuid) (getConnectedDevices s).
Proof.
  intros MsgCb TelCb uuid cs s.
  assert (H0 : DeviceFacts.tidy (create uuid : State MsgCb TelCb)).
  { split; [split|]; simpl; constructor. }
  destruct (DeviceFacts.runCalls_tidy cs _ H0) as [[[Hwf Hf] Hn] Hid].
  fold s in Hwf, Hf, Hn, Hid. simpl in Hid.
  unfold getConnectedDevices, JsMap.values, JsMap.wf, JsMap.keys in *.
  rewrite Hid in Hn. clear Hid H0.
  induction (devices s) as [|[k d] r IH]; simpl in *.
  - split; constructor.
  - inversion Hwf as [|? ? Hnin Hr]; subst.
    inversion Hf as [|? ? [Hk Hrole] Hfr]; subst.
    inversion Hn as [|? ? Hne Hnr]; subst. simpl in *.
    destruct (IH Hr Hfr Hnr) as [I1 I2].
    split.
    + constructor; [|exact I1].
      rewrite Hk. intros Hin. apply Hnin.
      clear - Hin Hfr. induction r as [|[k' d'] r IHr]; simpl in *;
        [contradiction|].
      inversion Hfr as [|? ? [Hk' _] Hfr']; subst. simpl in *.
      destruct Hin as [Hin|Hin]; [left; congruence | right; auto].
    + constructor; [|exact I2]. split; [congruence | exact Hrole].
Qed.

(** X4.  The liveness window.  After a [HANDSHAKE] or [TELEMETRY] of another
    sender has been handled at time [t], a sweep at time [now] keeps the
    record of that sender, as the message left it, when [now - t <= 15000],
    and removes it when [now - t > 15000]. *)
Theorem X4_record_lives_fifteen_seconds :
  forall (MsgCb TelCb : Type) (s : State MsgCb TelCb) (t sendNow now : Z)
         (plg : bool) (msg : LegionMessage),
    JsMap.wf (devices s) ->
    senderId msg <> deviceId s ->
    type msg = HANDSHAKE \/ type msg = TELEMETRY ->
    let s1 := fst (handleMessage s t msg) in
    let s2 := fst (heartbeatTick s1 sendNow now plg) in
    (now - t <= 15000 ->
     JsMap.get (senderId msg) (devices s2) = Some (deviceOf msg t))
    /\ (now - t > 15000 -> JsMap.get (senderId msg) (devices s2) = None).
Proof.
  intros MsgCb TelCb s t sendNow now plg msg Hwf Hne Ht s1 s2.
  assert (Hd1 : devices s1
                = JsMap.set (senderId msg) (deviceOf msg t) (devices s)).
  { unfold s1, handleMessage.
    destruct (String.eqb_spec (senderId msg) (deviceId s)); [contradiction|].
    destruct Ht as [-> | ->]; reflexivity. }
  assert (Hwf1 : JsMap.wf (devices s1))
    by (rewrite Hd1; now apply JsMapFacts.wf_set).
  assert (Hd2 : devices s2
                = filter (fun kd => negb (expired now kd)) (devices s1)).
  { unfold s2, heartbeatTick.
    rewrite (ServiceFacts.sweep_filter now (devices s1) Hwf1). reflexivity. }
  rewrite Hd2, (DeviceFacts.get_filter _ _ _ Hwf1), Hd1,
    JsMapFacts.get_set_same.
  unfold expired. simpl. unfold livenessTimeout.
  destruct (Z.gtb_spec (now - t) 15000); simpl; split; intros; try lia;
    reflexivity.
Qed.

Lemma X4_witness :
  JsMap.wf (devices c2_commander)
  /\ JsMap.get "field"
       (devices (fst (heartbeatTick
                        (fst (handleMessage c2_commander 10 (c2_handshake 0)))
                        15010 15010 false)))
     = Some (deviceOf (c2_handshake 0) 10).
Proof.
  assert (Hwf : JsMap.wf (devices c2_commander)) by constructor.
  split; [exact Hwf|].
  assert (Hne : senderId (c2_handshake 0) <> deviceId c2_commander)
    by (intros H; discriminate H).
  assert (Hle : 15010 - 10 <= 15000) by (intros H; discriminate H).
  exact (proj1 (X4_record_lives_fifteen_seconds unit unit c2_commander
                  10 15010 15010 false (c2_handshake 0) Hwf Hne
                  (or_introl eq_refl)) Hle).
Defined.

(** X5.  Sweeps compose.  On a map with one entry per key, a tick at [now1]
    followed by a tick at [now2 >= now1] leaves the device map that a single
    tick at [now2] leaves; and a second tick at the same time removes nothing
    and notifies no telemetry observer. *)
Theorem X5_sweeps_compose :
  forall (MsgCb TelCb : Type) (s : State MsgCb TelCb)
         (send1 send2 now1 now2 : Z) (plg1 plg2 : bool),
    JsMap.wf (devices s) ->
    now1 <= now2 ->
    let s1 := fst (heartbeatTick s send1 now1 plg1) in
    devices (fst (heartbeatTick s1 send2 now2 plg2))
    = devices (fst (heartbeatTick s send2 now2 plg2))
    /\ devices (fst (heartbeatTick s1 send2 now1 plg2)) = devices s1
    /\ forall cb ds,
        ~ In (CallTelemetry cb ds) (snd (heartbeatTick s1 send2 now1 plg2)).
Proof.
  intros MsgCb TelCb s send1 send2 now1 now2 plg1 plg2 Hwf Hle s1.
  assert (Hd1 : devices s1
                = filter (fun kd => negb (expired now1 kd)) (devices s)).
  { unfold s1, heartbeatTick.
    rewrite (ServiceFacts.sweep_filter now1 (devices s) Hwf). reflexivity. }
  assert (Hwf1 : JsMap.wf (devices s1))
    by (rewrite Hd1; now apply JsMapFacts.wf_filter).
  assert (Hkeep : forall now', now1 <= now' ->
            forall x, negb (expired now' x) = true ->
                      negb (expired now1 x) = true).
  { intros now' Hn x. unfold expired, livenessTimeout.
    rewrite !negb_true_iff.
    destruct (Z.gtb_spec (now' - lastPing (snd x)) 15000); [discriminate|].
    intros _. destruct (Z.gtb_spec (now1 - lastPing (snd x)) 15000);
      [lia | reflexivity]. }
  assert (Hsame : existsb (expired now1) (devices s1) = false).
  { rewrite Hd1. apply not_true_is_false. intros Hex.
    apply existsb_exists in Hex. destruct Hex as [x [Hin Hx]].
    apply filter_In in Hin. destruct Hin as [_ Hn].
    rewrite Hx in Hn. discriminate Hn. }
  split; [|split].
  - unfold heartbeatTick.
    rewrite (ServiceFacts.sweep_filter now2 (devices s1) Hwf1),
      (ServiceFacts.sweep_filter now2 (devices s) Hwf). simpl.
    rewrite Hd1. apply DeviceFacts.filter_filter_imp. exact (Hkeep now2 Hle).
  - unfold heartbeatTick.
    rewrite (ServiceFacts.sweep_filter now1 (devices s1) Hwf1). simpl.
    rewrite Hd1 at 1.
    rewrite (DeviceFacts.filter_filter_imp _ _ _ (Hkeep now1 (Z.le_refl _))).
    now rewrite Hd1.
  - intros cb ds Hin. unfold heartbeatTick in Hin.
    rewrite (ServiceFacts.sweep_filter now1 (devices s1) Hwf1) in Hin.
    simpl in Hin. rewrite Hsame, app_nil_r in Hin.
    exact (sendCommand_no_telemetry _ _ _ _ _ _ _ Hin).
Qed.

Lemma X5_witness :
  JsMap.wf (devices c7_state)
  /\ devices (fst (heartbeatTick (fst (heartbeatTick c7_state 0 12000 false))
                                 0 20000 false))
     = devices (fst (heartbeatTick c7_state 0 20000 false)).
Proof.
  split; [exact c7_state_wf|].
  assert (Hle : 12000 <= 20000) by (intros H; discriminate H).
  exact (proj1 (X5_sweeps_compose unit unit c7_state 0 0 12000 20000
                  false false c7_state_wf Hle)).
Defined.

(** X6.  An upsert neither duplicates nor reorders.  Handling a [HANDSHAKE]
    or [TELEMETRY] of another sender keeps the identities of the device list
    in their order when the sender is already listed (its record is replaced
    in place) and appends the sender at the end when it is not. *)
Theorem X6_upsert_keeps_order :
  forall (MsgCb TelCb : Type) (s : State MsgCb TelCb) (now : Z)
         (msg : LegionMessage),
    senderId msg <> deviceId s ->
    type msg = HANDSHAKE \/ type msg = TELEMETRY ->
    JsMap.keys (devices (fst (handleMessage s now msg)))
    = match JsMap.get (senderId msg) (devices s) with
      | Some _ => JsMap.keys (devices s)
      | None => JsMap.keys (devices s) ++ [senderId msg]
      end.
Proof.
  intros MsgCb TelCb s now msg Hne Ht. unfold handleMessage.
  destruct (String.eqb_spec (senderId msg) (deviceId s)); [contradiction|].
  destruct Ht as [-> | ->]; simpl; apply DeviceFacts.keys_set.
Qed.

Lemma X6_witness :
  senderId (c2_handshake 20000) <> deviceId c2_after_heartbeats
  /\ JsMap.keys (devices (fst (handleMessage c2_after_heartbeats 20010
                                 (c2_handshake 20000))))
     = ["field"].
Proof.
  assert (Hne : senderId (c2_handshake 20000) <> deviceId c2_after_heartbeats)
    by (intros H; discriminate H).
  split; [exact Hne|].
  exact (X6_upsert_keeps_order unit unit c2_after_heartbeats 20010
           (c2_handshake 20000) Hne (or_introl eq_refl)).
Defined.

(** ** Turns of the event loop, in closed form *)

Module TurnFacts.

Import Traces.

(** The parts of the world after performing effects. *)
Definition after (w : World) (c : Camera.State) (q : list (Z * Task))
           (r : World * list Output) (o : list Output) : Prop :=
  svc (fst r) = svc w /\ plugin (fst r) = plugin w /\ cam (fst r) = c
  /\ timeouts (fst r) = timeouts w ++ q /\ snd r = o.

Lemma exec_quiet depth now w (e : SvcEffect) :
  callsObserver e = false ->
  after w (cam w) (svcTimers now [e]) (exec depth now w e) (svcOutputs [e]).
Proof.
  unfold after.
  destruct depth, e as [u|m|t p pr|cb m|cb ds|dl m|h|h|]; simpl;
    try discriminate; intros _; rewrite ?app_nil_r; repeat split.
Qed.

Lemma runList_quiet depth now (es : list SvcEffect) :
  (forall e, In e es -> callsObserver e = false) ->
  forall w,
    after w (cam w) (svcTimers now es)
          (runList (exec depth now) w es) (svcOutputs es).
Proof.
  unfold after.
  induction es as [|e r IH]; intros Hq w; simpl.
  - rewrite app_nil_r. repeat split.
  - destruct (exec_quiet depth now w e (Hq e (or_introl eq_refl)))
      as [H1 [H2 [H3 [H4 H5]]]].
    destruct (exec depth now w e) as [w1 o1]. simpl in *.
    destruct (IH (fun e' He' => Hq e' (or_intror He')) w1)
      as [I1 [I2 [I3 [I4 I5]]]].
    destruct (runList (exec depth now) w1 r) as [w2 o2]. simpl in *.
    rewrite app_nil_r in H4, H5.
    repeat split; try congruence.
    rewrite I4, H4. now rewrite <- app_assoc.
Qed.

Lemma sendCommand_quiet (s : Svc) now plg t p :
  forall e, In e (LegionService.sendCommand s now plg t p) ->
            callsObserver e = false.
Proof.
  intros e He.
  pose proof (ServiceFacts.sendCommand_effects s now plg t p e He).
  destruct e; try contradiction; reflexivity.
Qed.

(** Effects of the capture layer leave the service and the camera as they
    are. *)
Lemma runList_camera depth now (ces : list Camera.Effect) :
  forall w,
    after w (cam w) (camTimers (svc w) (plugin w) now ces)
          (runList (execCamWith (exec depth now) now) w ces)
          (camOutputs (svc w) (plugin w) now ces).
Proof.
  unfold after.
  induction ces as [|e r IH]; intros w; simpl.
  - rewrite app_nil_r. repeat split.
  - assert (He : after w (cam w) (camTimers (svc w) (plugin w) now [e])
                       (execCamWith (exec depth now) now w e)
                       (camOutputs (svc w) (plugin w) now [e])).
    { unfold after. destruct e as [| |t p|d]; simpl;
        rewrite ?app_nil_r; try (repeat split; fail).
      apply runList_quiet. apply sendCommand_quiet. }
    destruct He as [H1 [H2 [H3 [H4 H5]]]].
    destruct (execCamWith (exec depth now) now w e) as [w1 o1]. simpl in *.
    destruct (IH w1) as [I1 [I2 [I3 [I4 I5]]]].
    destruct (runList (execCamWith (exec depth now) now) w1 r) as [w2 o2].
    simpl in *. rewrite app_nil_r in H4, H5.
    rewrite H1, H2 in I4, I5.
    repeat split; try congruence.
    rewrite I4, H4. now rewrite <- app_assoc.
Qed.

(** A call of the message observer. *)
Lemma exec_call depth now w cb m :
  let r := Camera.onLegionMessage
             (LegionService.getDeviceId (svc w))
             (LegionService.getSynchronizedTime (svc w) now) (cam w) m in
  after w (fst r) (camTimers (svc w) (plugin w) now (snd r))
        (exec (S depth) now w (LegionService.CallMessage cb m))
        (Observed m :: camOutputs (svc w) (plugin w) now (snd r)).
Proof.
  destruct cb. simpl.
  destruct (Camera.onLegionMessage _ _ _ m) as [c ces]. simpl.
  pose proof (runList_camera depth now ces (set_cam w c)) as H.
  destruct (runList _ (set_cam w c) ces) as [w' o].
  unfold after in *. simpl in *. intuition congruence.
Qed.

(** A relation between the world before, what was shown, and the world
    after, that holds of each effect, holds of the list. *)
Lemma runList_rel {E} (R : World -> list Output -> World -> Prop)
      (f : World -> E -> World * list Output) (es : list E) :
  (forall w, R w [] w) ->
  (forall a o1 b o2 c, R a o1 b -> R b o2 c -> R a (o1 ++ o2) c) ->
  (forall w e, In e es -> R w (snd (f w e)) (fst (f w e))) ->
  forall w, R w (snd (runList f w es)) (fst (runList f w es)).
Proof.
  intros Hrefl Htrans. induction es as [|e r IH]; intros Hf w; simpl.
  - apply Hrefl.
  - pose proof (Hf w e (or_introl eq_refl)) as He.
    destruct (f w e) as [w1 o1].
    pose proof (IH (fun w' e' Hin => Hf w' e' (or_intror Hin)) w1) as Hr.
    destruct (runList f w1 r) as [w2 o2]. simpl in *.
    eapply Htrans; eassumption.
Qed.

End TurnFacts.

(** ** The recorder *)

Module RecorderFacts.

Import Traces TurnFacts.














End RecorderFacts.



(** ** The identity of the node *)

Module IdentityFacts.

Import Traces TurnFacts.

Section Own.

Variable own : string.

Lemma sendCommand_signed (s : Svc) now plg t p :
  deviceId s = own ->
  Forall (signedEffect own) (sendCommand s now plg t p).
Proof.
  intros Hid. unfold sendCommand.
  destruct (socketOpen s); [constructor; [exact Hid | constructor]|].
  destruct (role s) as [[|]|]; try constructor.
  destruct plg; simpl; repeat (constructor; try exact I); exact Hid.
Qed.

Lemma svcTimers_own now (es : list SvcEffect) :
  Forall (signedEffect own) es -> ownLoopbacks own (svcTimers now es).
Proof.
  unfold ownLoopbacks, svcTimers.
  induction 1 as [|e r He _ IH]; simpl; [constructor|].
  apply Forall_app. split; [|exact IH].
  destruct e; simpl; constructor; [exact He | constructor].
Qed.

Lemma svcOutputs_signed (es : list SvcEffect) :
  Forall (signedEffect own) es -> Forall (signed own) (svcOutputs es).
Proof.
  unfold svcOutputs.
  induction 1 as [|e r He _ IH]; simpl; [constructor|].
  apply Forall_app. split; [|exact IH].
  destruct e; simpl; constructor; try exact I; try constructor. exact He.
Qed.

Lemma camTimers_own (s : Svc) plg now (ces : list Camera.Effect) :
  deviceId s = own -> ownLoopbacks own (camTimers s plg now ces).
Proof.
  intros Hid. unfold ownLoopbacks, camTimers.
  induction ces as [|e r IH]; simpl; [constructor|].
  apply Forall_app. split; [|exact IH].
  destruct e as [| |t p|d]; simpl; try constructor.
  - apply svcTimers_own, sendCommand_signed, Hid.
  - exact I.
  - constructor.
Qed.

Lemma camOutputs_signed (s : Svc) plg now (ces : list Camera.Effect) :
  deviceId s = own -> Forall (signed own) (camOutputs s plg now ces).
Proof.
  intros Hid. unfold camOutputs.
  induction ces as [|e r IH]; simpl; [constructor|].
  apply Forall_app. split; [|exact IH].
  destruct e as [| |t p|d]; simpl; try (repeat constructor; fail).
  apply svcOutputs_signed, sendCommand_signed, Hid.
Qed.

Lemma keeps_refl w : keeps own w [] w.
Proof. intros Hid Hq. repeat split; auto. Qed.

Lemma keeps_trans a o1 b o2 c :
  keeps own a o1 b -> keeps own b o2 c -> keeps own a (o1 ++ o2) c.
Proof.
  intros H1 H2 Ha Hq.
  destruct (H1 Ha Hq) as [Hb [Hqb Ho1]].
  destruct (H2 Hb Hqb) as [Hc [Hqc Ho2]].
  repeat split; auto. apply Forall_app. auto.
Qed.

Lemma exec_own depth now w (e : SvcEffect) :
  signedEffect own e ->
  keeps own w (snd (exec depth now w e)) (fst (exec depth now w e)).
Proof.
  intros He Hid Hq.
  destruct (callsObserver e) eqn:Ec.
  - destruct e; try discriminate. destruct depth.
    + destruct cb. simpl. repeat split; auto.
    + destruct (exec_call depth now w cb m) as [H1 [_ [_ [H4 H5]]]].
      rewrite H1, H4, H5. split; [exact Hid|]. split.
      * apply Forall_app. split; [exact Hq|]. now apply camTimers_own.
      * constructor; [exact I|]. now apply camOutputs_signed.
  - destruct (exec_quiet depth now w e Ec) as [H1 [_ [_ [H4 H5]]]].
    rewrite H1, H4, H5. split; [exact Hid|]. split.
    + apply Forall_app. split; [exact Hq|].
      apply svcTimers_own. now constructor.
    + apply svcOutputs_signed. now constructor.
Qed.

Lemma runService_own now w (es : list SvcEffect) :
  Forall (signedEffect own) es ->
  keeps own w (snd (runService now w es)) (fst (runService now w es)).
Proof.
  intros Hes. unfold runService.
  apply (runList_rel (keeps own)).
  - exact keeps_refl.
  - exact keeps_trans.
  - intros w' e Hin. apply exec_own.
    rewrite Forall_forall in Hes. now apply Hes.
Qed.

Lemma runCamera_own now w (ces : list Camera.Effect) :
  keeps own w (snd (runCamera now w ces)) (fst (runCamera now w ces)).
Proof.
  intros Hid Hq. unfold runCamera.
  destruct (runList_camera stackDepth now ces w) as [H1 [_ [_ [H4 H5]]]].
  rewrite H1, H4, H5. split; [exact Hid|]. split.
  - apply Forall_app. split; [exact Hq|]. now apply camTimers_own.
  - now apply camOutputs_signed.
Qed.

Lemma keeps_set_svc w (s : Svc) o b :
  deviceId s = deviceId (svc w) ->
  keeps own (set_svc w s) o b -> keeps own w o b.
Proof. intros E H Hid Hq. apply H; simpl; congruence. Qed.

Lemma keeps_set_cam w (c : Camera.State) o b :
  keeps own (set_cam w c) o b -> keeps own w o b.
Proof. intros H Hid Hq. now apply H. Qed.

Lemma removeNth_own i (q : list (Z * Task)) :
  ownLoopbacks own q -> ownLoopbacks own (removeNth i q).
Proof.
  unfold ownLoopbacks, removeNth. revert q.
  induction i as [|i IH]; intros [|x q] H; simpl; try exact H.
  - now inversion H.
  - inversion H; subst. constructor; [assumption|]. now apply IH.
Qed.

Lemma initialize_signed (s : Svc) r proto ip ctorOk :
  deviceId (fst (fst (initialize s r proto ip ctorOk))) = deviceId s
  /\ Forall (signedEffect own) (snd (fst (initialize s r proto ip ctorOk))).
Proof.
  unfold initialize, stopHeartbeat, startHeartbeat.
  destruct s as [sk rl pr did off mcb tcb [h|] devs]; simpl;
    destruct (LegionRole_eqb r CENTURION && truthy ip);
    try destruct ctorOk; simpl; split; try reflexivity;
    repeat (constructor; try exact I).
Qed.

Lemma socket_onopen_signed (s : Svc) now plg proto :
  deviceId s = own ->
  deviceId (fst (socket_onopen s now plg proto)) = deviceId s
  /\ Forall (signedEffect own) (snd (socket_onopen s now plg proto)).
Proof.
  intros Hid. unfold socket_onopen, startHeartbeat.
  destruct (heartbeatInterval s); simpl; (split; [reflexivity|]);
    apply Forall_app; (split; [now apply sendCommand_signed|]);
    repeat (constructor; try exact I).
Qed.

Lemma handleMessage_signed (s : Svc) now msg :
  Forall (signedEffect own) (snd (handleMessage s now msg)).
Proof.
  unfold handleMessage, notifyTelemetry.
  destruct (String.eqb _ _); [constructor|].
  destruct (type msg); simpl;
    destruct (onTelemetryCallback s), (onMessageCallback s); simpl;
    repeat (constructor; try exact I).
Qed.

Lemma heartbeatTick_signed (s : Svc) sendNow now plg :
  deviceId s = own ->
  deviceId (fst (heartbeatTick s sendNow now plg)) = deviceId s
  /\ Forall (signedEffect own) (snd (heartbeatTick s sendNow now plg)).
Proof.
  intros Hid. unfold heartbeatTick, notifyTelemetry.
  destruct (sweepLoop _ _ _ _) as [devs changed]. simpl.
  split; [reflexivity|].
  apply Forall_app. split; [now apply sendCommand_signed|].
  destruct changed, (onTelemetryCallback s); repeat (constructor; try exact I).
Qed.

(** One turn. *)
Lemma step_own w now ev w1 out :
  step w now ev = Some (w1, out) -> keeps own w out w1.
Proof.
  destruct ev; simpl; intros H.
  - pose proof (initialize_signed (svc w) r proto targetIp ctorOk) as [Hd He].
    destruct (LegionService.initialize _ _ _ _ _) as [[s es] o].
    simpl in Hd, He.
    pose proof (runService_own now (set_svc w s) es He) as Hr.
    destruct (runService now (set_svc w s) es) as [w' o']. inversion H; subst.
    apply (keeps_set_svc _ s); [exact Hd|].
    eapply keeps_trans; [exact Hr|].
    intros Hid Hq. repeat split; auto. repeat (constructor; try exact I).
  - inversion H; subst. intros Hid Hq. unfold setLegionMode.
    destruct (Camera.isLegionMode (cam w)); repeat split; auto.
  - intros Hid Hq.
    destruct legion, (Camera.legionRole (cam w)); inversion H; subst;
      unfold setLegionMode; destruct (Camera.isLegionMode (cam w));
      repeat split; auto.
  - destruct (Camera.legionRole (cam w)) as [[|]|]; inversion H; subst.
    intros Hid Hq. repeat split; auto.
  - destruct (LegionService.socket (svc w)) as [[u [] proto]|];
      try discriminate.
    intros Hid Hq.
    pose proof (socket_onopen_signed
                  (LegionService.set_socket (svc w)
                     (Some (mkSocket u OPEN proto))) now (plugin w) proto Hid)
      as [Hd He].
    destruct (LegionService.socket_onopen _ _ _ _) as [s es].
    simpl in Hd, He.
    pose proof (runService_own now (set_svc w s) es He) as Hr.
    inversion H as [E]. rewrite E in Hr. simpl in Hr.
    apply Hr; simpl; congruence.
  - destruct (LegionService.socketOpen (svc w)); try discriminate.
    destruct data as [m|]; simpl in H.
    + pose proof (ServiceFacts.handleMessage_deviceId (svc w) now m) as Hd.
      pose proof (handleMessage_signed (svc w) now m) as He.
      destruct (LegionService.handleMessage _ _ _) as [s es].
      simpl in Hd, He.
      pose proof (runService_own now (set_svc w s) es He) as Hr.
      inversion H as [E]. rewrite E in Hr. simpl in Hr.
      now apply (keeps_set_svc _ s).
    + inversion H; subst. intros Hid Hq. simpl.
      repeat split; auto. repeat (constructor; try exact I).
  - destruct (LegionService.socket (svc w)) as [[u rs proto]|];
      inversion H; subst. intros Hid Hq. repeat split; auto.
  - destruct (LegionService.heartbeatInterval (svc w)); try discriminate.
    intros Hid Hq.
    pose proof (heartbeatTick_signed (svc w) now now (plugin w) Hid)
      as [Hd He].
    destruct (LegionService.heartbeatTick _ _ _ _) as [s es].
    simpl in Hd, He.
    pose proof (runService_own now (set_svc w s) es He) as Hr.
    inversion H as [E]. rewrite E in Hr. simpl in Hr.
    apply Hr; simpl; congruence.
  - destruct (nth_error (timeouts w) i) as [[due [m|]]|]; try discriminate;
      destruct (due <=? now); try discriminate; intros Hid Hq.
    + match type of H with
      | Some (runService ?n ?w0 ?es) = _ =>
          pose proof (runService_own n w0 es) as Hr
      end.
      inversion H as [E]. rewrite E in Hr. simpl in Hr.
      apply Hr; [|exact Hid|now apply removeNth_own].
      unfold LegionService.loopback. simpl.
      destruct (LegionService.onMessageCallback (svc w));
        repeat (constructor; try exact I).
    + destruct (Camera.delayedStart _) as [c ces].
      pose proof (runCamera_own now
                    (set_cam (set_timeouts w (removeNth i (timeouts w))) c)
                    ces) as Hr.
      inversion H as [E]. rewrite E in Hr. simpl in Hr.
      apply Hr; [exact Hid|now apply removeNth_own].
  - destruct (Camera.handleShutterAction _ _) as [c ces].
    pose proof (runCamera_own now (set_cam w c) ces) as Hr.
    inversion H as [E]. rewrite E in Hr. simpl in Hr.
    now apply (keeps_set_cam _ c).
  - destruct (Camera.legionRole (cam w)) as [[|]|]; try discriminate.
    pose proof (runCamera_own now w Dashboard.handleGlobalStart) as Hr.
    injection H as E.
    change (runCamera now w Dashboard.handleGlobalStart = (w1, out)) in E.
    now rewrite E in Hr.
  - destruct (Camera.legionRole (cam w)) as [[|]|]; try discriminate.
    pose proof (runCamera_own now w Dashboard.handleGlobalStop) as Hr.
    injection H as E.
    change (runCamera now w Dashboard.handleGlobalStop = (w1, out)) in E.
    now rewrite E in Hr.
  - inversion H; subst. intros Hid Hq. repeat split; auto.
Qed.

Lemma run_own :
  forall evs w w' out, run w evs = Some (w', out) -> keeps own w out w'.
Proof.
  induction evs as [|[now ev] r IH]; intros w w' out Hrun.
  - simpl in Hrun. inversion Hrun; subst. apply keeps_refl.
  - apply run_cons in Hrun. destruct Hrun as [w1 [o1 [o2 [Hs [Hr ->]]]]].
    eapply keeps_trans; [exact (step_own _ _ _ _ _ Hs) | exact (IH _ _ _ Hr)].
Qed.

End Own.

End IdentityFacts.

(** X8.  The identity of the node.  Through every sequence of turns from
    start-up the service keeps the identity it was created with, every
    message it puts on the socket carries that identity as [senderId], and so
    does every loopback that waits in the timer queue. *)
Theorem X8_every_message_carries_the_identity :
  forall (uuid : string) (hasPlugin : bool) (evs : list (Z * Event))
         (w : World) (out : list Output),
    run (boot uuid hasPlugin) evs = Some (w, out) ->
    getDeviceId (svc w) = uuid
    /\ Forall (Traces.signed uuid) out
    /\ Traces.ownLoopbacks uuid (timeouts w).
Proof.
  intros uuid hasPlugin evs w out Hrun.
  destruct (IdentityFacts.run_own uuid evs _ _ _ Hrun eq_refl
              (Forall_nil _)) as [H1 [H2 H3]].
  auto.
Qed.

(** The field node of the scenario signs its handshake. *)
Lemma X8_witness :
  Forall (Traces.signed "node")
         (match run (boot "node" false) c3_trace with
          | Some (_, out) => out
          | None => []
          end).
Proof.
  exact (proj1 (proj2 (X8_every_message_carries_the_identity
                         "node" false c3_trace
                         (match run (boot "node" false) c3_trace with
                          | Some (w, _) => w
                          | None => boot "node" false
                          end)
                         _ eq_refl))).
Defined.

(** X9.  A node never acts on its own messages.  In every state the
    application reaches from start-up, a loopback that fires only leaves the
    timer queue: the listener, when one is registered, is invoked with the
    message and drops it, so that the service, the camera and the rest of the
    queue stay as they are and the recorder is not touched. *)
Theorem X9_own_loopbacks_are_dropped :
  forall (uuid : string) (hasPlugin : bool) (evs : list (Z * Event))
         (w : World) (out : list Output) (i : nat) (due now : Z)
         (m : LegionMessage),
    run (boot uuid hasPlugin) evs = Some (w, out) ->
    nth_error (timeouts w) i = Some (due, LoopbackTask m) ->
    due <= now ->
    step w now (Timeout i)
    = Some (set_timeouts w (removeNth i (timeouts w)),
            match onMessageCallback (svc w) with
            | Some _ => [Observed m]
            | None => []
            end).
Proof.
  intros uuid hasPlugin evs w out i due now m Hrun Hn Hd.
  destruct (IdentityFacts.run_own uuid evs _ _ _ Hrun eq_refl
              (Forall_nil _)) as [H1 [H2 _]].
  apply (loopback_own_ignored w i due now m Hn Hd).
  rewrite H1. unfold Traces.ownLoopbacks in H2.
  rewrite Forall_forall in H2.
  exact (H2 _ (nth_error_In _ _ Hn)).
Qed.

Lemma X9_witness :
  step c1_dispatched 10 (Timeout 0%nat)
  = Some (set_timeouts c1_dispatched (removeNth 0%nat (timeouts c1_dispatched)),
          [Observed (mkMessage START_REC 10 "cmdr"
                               (Some (Camera.delayPayload 1000)))]).
Proof.
  assert (Hle : 10 <= 10) by (intros H; discriminate H).
  exact (X9_own_loopbacks_are_dropped "cmdr" true
           (firstn 4 c1_dashboard_trace) c1_dispatched c1_dispatched_outputs
           0%nat 10 10
           (mkMessage START_REC 10 "cmdr" (Some (Camera.delayPayload 1000)))
           eq_refl eq_refl Hle).
Defined.

(** ** What stays on the node *)

Module RelayFacts.

Import Traces TurnFacts.

Lemma local_refl w : local w [] w.
Proof. exists []. rewrite app_nil_r. repeat split; constructor. Qed.

Lemma local_trans a o1 b o2 c :
  local a o1 b -> local b o2 c -> local a (o1 ++ o2) c.
Proof.
  intros [q1 [E1 [Q1 O1]]] [q2 [E2 [Q2 O2]]]. exists (q1 ++ q2).
  rewrite E2, E1, app_assoc. repeat split; apply Forall_app; auto.
Qed.

(** Effects of the capture layer that dispatch nothing. *)
Lemma camera_local (s : Svc) plg now (ces : list Camera.Effect) :
  Forall (fun e => isSendCommand e = false) ces ->
  Forall (fun t => isDelayedStart t = true) (camTimers s plg now ces)
  /\ Forall (fun x => isTransmission x = false) (camOutputs s plg now ces).
Proof.
  unfold camTimers, camOutputs.
  induction 1 as [|e r He _ [IH1 IH2]]; simpl; [split; constructor|].
  split; apply Forall_app; (split; [|assumption]);
    destruct e; try discriminate; repeat constructor.
Qed.

Lemma startRecording_local (c : Camera.State) :
  Forall (fun e => isSendCommand e = false)
         (snd (Camera.startRecording c false)).
Proof.
  unfold Camera.startRecording.
  destruct (Camera.stream c); simpl; repeat constructor.
Qed.

Lemma stopRecording_local (c : Camera.State) :
  Forall (fun e => isSendCommand e = false)
         (snd (Camera.stopRecording c false)).
Proof.
  unfold Camera.stopRecording.
  destruct (Camera.mediaRecorder c && Camera.isRecording c); simpl;
    repeat constructor.
Qed.

Lemma delayedStart_local (c : Camera.State) :
  Forall (fun e => isSendCommand e = false) (snd (Camera.delayedStart c)).
Proof.
  unfold Camera.delayedStart.
  destruct (Camera.isRecording c); simpl;
    [constructor | apply startRecording_local].
Qed.

Lemma onLegionMessage_local ownId syncNow (c : Camera.State) msg :
  Forall (fun e => isSendCommand e = false)
         (snd (Camera.onLegionMessage ownId syncNow c msg)).
Proof.
  unfold Camera.onLegionMessage.
  destruct (String.eqb _ _); [constructor|].
  destruct (type msg); simpl; repeat constructor.
  destruct (Camera.isRecording c); [apply stopRecording_local | constructor].
Qed.

Lemma exec_local depth now w (e : SvcEffect) :
  isLocalEffect e = true ->
  local w (snd (exec depth now w e)) (fst (exec depth now w e)).
Proof.
  intros He. destruct (callsObserver e) eqn:Ec.
  - destruct e; try discriminate. destruct depth.
    + destruct cb. simpl. exists []. rewrite app_nil_r.
      repeat constructor.
    + destruct (exec_call depth now w cb m) as [_ [_ [_ [H4 H5]]]].
      rewrite H5. eexists. split; [exact H4|].
      destruct (camera_local (svc w) (plugin w) now _
                  (onLegionMessage_local
                     (getDeviceId (svc w))
                     (getSynchronizedTime (svc w) now) (cam w) m))
        as [C1 C2].
      split; [exact C1|]. constructor; [reflexivity | exact C2].
  - destruct (exec_quiet depth now w e Ec) as [_ [_ [_ [H4 H5]]]].
    rewrite H5. eexists. split; [exact H4|].
    destruct e; try discriminate; simpl; repeat constructor.
Qed.

Lemma runService_local now w (es : list SvcEffect) :
  Forall (fun e => isLocalEffect e = true) es ->
  local w (snd (runService now w es)) (fst (runService now w es)).
Proof.
  intros Hes. unfold runService. apply (runList_rel local).
  - exact local_refl.
  - exact local_trans.
  - intros w' e Hin. apply exec_local.
    rewrite Forall_forall in Hes. now apply Hes.
Qed.

Lemma runCamera_local now w (ces : list Camera.Effect) :
  Forall (fun e => isSendCommand e = false) ces ->
  local w (snd (runCamera now w ces)) (fst (runCamera now w ces)).
Proof.
  intros Hces. unfold runCamera.
  destruct (runList_camera stackDepth now ces w) as [_ [_ [_ [H4 H5]]]].
  rewrite H5. eexists. split; [exact H4|].
  now apply camera_local.
Qed.

Lemma handleMessage_local (s : Svc) now msg :
  Forall (fun e => isLocalEffect e = true) (snd (handleMessage s now msg)).
Proof.
  unfold handleMessage, notifyTelemetry.
  destruct (String.eqb _ _); [constructor|].
  destruct (type msg); simpl;
    destruct (onTelemetryCallback s), (onMessageCallback s); simpl;
    repeat constructor.
Qed.

End RelayFacts.

(** X10.  A node passes nothing on.  A turn in which a message arrives on
    the socket, or in which a closure of the timer queue runs (a loopback or
    a guarded start), puts nothing on the socket and broadcasts nothing
    through the native plugin, and what it adds to the timer queue are guarded
    starts only: a remote start or stop is never dispatched again, whatever
    the role of the node. *)
Theorem X10_remote_turns_dispatch_nothing :
  forall (w : World) (now : Z) (ev : Event) (w1 : World) (out : list Output),
    Traces.isRemoteTurn ev = true ->
    step w now ev = Some (w1, out) ->
    Forall (fun x => Traces.isTransmission x = false) out
    /\ exists q,
         timeouts w1 = Traces.queueBefore w ev ++ q
         /\ Forall (fun t => Traces.isDelayedStart t = true) q.
Proof.
  intros w now ev w1 out Hev Hs.
  assert (H : exists w0, timeouts w0 = Traces.queueBefore w ev
                         /\ Traces.local w0 out w1).
  { destruct ev; try discriminate Hev; simpl in Hs |- *.
    - destruct (socketOpen (svc w)); try discriminate.
      destruct data as [m|]; simpl in Hs.
      + pose proof (RelayFacts.handleMessage_local (svc w) now m) as He.
        destruct (handleMessage _ _ _) as [s es]. simpl in He.
        pose proof (RelayFacts.runService_local now (set_svc w s) es He)
          as Hr.
        inversion Hs as [E]. rewrite E in Hr.
        exists (set_svc w s). split; [reflexivity | exact Hr].
      + inversion Hs; subst. exists w. split; [reflexivity|].
        exists []. rewrite app_nil_r. repeat constructor.
    - destruct (nth_error (timeouts w) i) as [[due [m|]]|]; try discriminate;
        destruct (due <=? now); try discriminate.
      + match type of Hs with
        | Some (runService ?n ?w0 ?es) = _ =>
            pose proof (RelayFacts.runService_local n w0 es) as Hr;
            exists w0
        end.
        inversion Hs as [E]. rewrite E in Hr.
        split; [reflexivity|]. apply Hr.
        unfold loopback. simpl.
        destruct (onMessageCallback (svc w)); repeat constructor.
      + pose proof (RelayFacts.delayedStart_local
                      (cam (set_timeouts w (removeNth i (timeouts w)))))
          as He.
        destruct (Camera.delayedStart _) as [c ces]. simpl in He.
        pose proof (RelayFacts.runCamera_local now
                      (set_cam (set_timeouts w (removeNth i (timeouts w))) c)
                      ces He) as Hr.
        inversion Hs as [E]. rewrite E in Hr.
        eexists. split; [|exact Hr]. reflexivity. }
  destruct H as [w0 [E0 [q [E [Hq Ho]]]]].
  split; [exact Ho|]. exists q. rewrite <- E0. auto.
Qed.

(** The field node that receives a start puts nothing on the socket. *)
Lemma X10_witness :
  Forall (fun x => Traces.isTransmission x = false)
         (match step c4_field_node 50 (SocketMessage (Some c4_start)) with
          | Some (_, out) => out
          | None => []
          end).
Proof.
  exact (proj1 (X10_remote_turns_dispatch_nothing c4_field_node 50
                  (SocketMessage (Some c4_start))
                  (match step c4_field_node 50
                                (SocketMessage (Some c4_start)) with
                   | Some (w, _) => w
                   | None => c4_field_node
                   end)
                  _ eq_refl eq_refl)).
Defined.

(** X11.  The fleet commands of the dashboard do not reach the commander's
    own camera.  On a commander without an open socket, a global start or
    stop from the dashboard followed by the turn of its loopback leaves the
    node exactly as it was: the service, the camera and the timer queue are
    unchanged, and all that shows is the broadcast of the native plugin, when
    there is one, and the listener invoked with the message it drops.  The
    recorder is neither started nor stopped. *)
Theorem X11_fleet_commands_skip_the_commander :
  forall (w : World) (now now' : Z) (ev : Event)
         (t : MsgType) (p : option Payload),
    (ev = GlobalStart /\ t = START_REC
     /\ p = Some (Camera.delayPayload 1000))
    \/ (ev = GlobalStop /\ t = STOP_REC /\ p = None) ->
    Camera.legionRole (cam w) = Some LEGATUS ->
    role (svc w) = Some LEGATUS ->
    socketOpen (svc w) = false ->
    now <= now' ->
    run w [(now, ev); (now', Timeout (List.length (timeouts w)))]
    = Some (w,
            (if plugin w then [Broadcast t p (protocol (svc w))] else [])
            ++ match onMessageCallback (svc w) with
               | Some _ => [Observed (mkMessage t now (deviceId (svc w)) p)]
               | None => []
               end).
Proof.
  intros w now now' ev t p Hc Hcam Hr Ho Hle.
  assert (H1 : step w now ev
               = Some (addTimeout w now 0
                         (LoopbackTask (mkMessage t now (deviceId (svc w)) p)),
                       if plugin w then [Broadcast t p (protocol (svc w))]
                       else [])).
  { destruct Hc as [[-> [-> ->]] | [-> [-> ->]]]; unfold step; rewrite Hcam;
      [unfold Dashboard.handleGlobalStart | unfold Dashboard.handleGlobalStop];
      now rewrite (dispatch_commander w now _ _ Hr Ho). }
  cbn [run]. rewrite H1.
  erewrite loopback_own_ignored;
    [| simpl; apply nth_error_last | lia | reflexivity].
  simpl timeouts. rewrite removeNth_last, app_nil_r.
  destruct w; reflexivity.
Qed.

Lemma X11_witness :
  run c9_commander [(10, GlobalStart); (10, Timeout 0%nat)]
  = Some (c9_commander,
          [Broadcast START_REC (Some (Camera.delayPayload 1000)) WIFI;
           Observed (mkMessage START_REC 10 "cmdr"
                               (Some (Camera.delayPayload 1000)))]).
Proof.
  assert (Hle : 10 <= 10) by (intros H; discriminate H).
  exact (X11_fleet_commands_skip_the_commander c9_commander 10 10
           GlobalStart START_REC (Some (Camera.delayPayload 1000))
           (or_introl (conj eq_refl (conj eq_refl eq_refl)))
           eq_refl eq_refl eq_refl Hle).
Defined.

(** ** The connection dialog *)

(** X12.  The dialog dials only addresses that pass its check.  When the
    address in the field fails the check (the empty address does),
    [startAsCenturion] leaves the service untouched, performs nothing, does
    not call [onConnected] and shows an error.  When it passes, the service
    is initialized as a field node with the protocol of the dialog and without
    heartbeat interval, the only socket it can create is the one for
    [ws://<address>:<port>/legion], and [onConnected('CENTURION')] is called
    exactly when the constructor returned; the dialog then stays in its
    connecting state, and otherwise shows an error. *)
Theorem X12_dialog_dials_only_checked_addresses :
  forall (MsgCb TelCb : Type) (h : LegionHUD.State) (s : State MsgCb TelCb)
         (ctorOk : bool) (h' : LegionHUD.State) (s' : State MsgCb TelCb)
         (es : list (Effect MsgCb TelCb)) (oc : option LegionRole),
    LegionHUD.startAsCenturion h s ctorOk = (h', s', es, oc) ->
    let u := socketUrl (LegionHUD.protocol h) (LegionHUD.ipAddress h) in
    (Regex.test LegionHUD.ipRegex (LegionHUD.ipAddress h) = false ->
     s' = s /\ es = [] /\ oc = None
     /\ Traces.isSome (LegionHUD.error h') = true)
    /\ (Regex.test LegionHUD.ipRegex (LegionHUD.ipAddress h) = true ->
        role s' = Some CENTURION
        /\ protocol s' = LegionHUD.protocol h
        /\ heartbeatInterval s' = None
        /\ (forall v, In (NewWebSocket v) es -> v = u)
        /\ if ctorOk
           then socket s' = Some (mkSocket u CONNECTING (LegionHUD.protocol h))
                /\ In (NewWebSocket u) es
                /\ oc = Some CENTURION
                /\ LegionHUD.isConnecting h' = true
                /\ LegionHUD.error h' = None
           else socket s' = socket s
                /\ oc = None
                /\ LegionHUD.isConnecting h' = false
                /\ Traces.isSome (LegionHUD.error h') = true).
Proof.
  intros MsgCb TelCb h s ctorOk h' s' es oc H u.
  unfold LegionHUD.startAsCenturion in H.
  destruct (String.eqb_spec (LegionHUD.ipAddress h) "") as [E|E].
  - rewrite E. inversion H; subst. split; [intros _|discriminate].
    repeat split.
  - destruct (Regex.test LegionHUD.ipRegex (LegionHUD.ipAddress h)) eqn:T;
      simpl in H.
    + split; [discriminate|intros _].
      unfold initialize, stopHeartbeat in H.
      assert (Ht : truthy (Some (LegionHUD.ipAddress h)) = true).
      { simpl. apply negb_true_iff. now apply String.eqb_neq. }
      assert (Hu : str_or (Some (LegionHUD.ipAddress h)) ""
                   = LegionHUD.ipAddress h).
      { simpl. apply String.eqb_neq in E. now rewrite E. }
      rewrite Ht, Hu in H. fold u in H.
      destruct s as [sk rl pr did off mcb tcb [i|] devs], ctorOk;
        simpl in H; inversion H; subst; simpl;
        repeat split; auto;
        intros v Hv; simpl in Hv;
        repeat (destruct Hv as [Hv|Hv]; try discriminate Hv;
                try (now inversion Hv)); contradiction.
    + inversion H; subst. split; [intros _|discriminate]. repeat split.
Qed.

Lemma X12_witness :
  socket (snd (fst (fst (LegionHUD.startAsCenturion
                           (LegionHUD.onChangeIp LegionHUD.initial "10.0.0.1")
                           (create "node" : State unit unit) true))))
  = Some (mkSocket "ws://10.0.0.1:8080/legion" CONNECTING WIFI).
Proof.
  exact (proj1 (proj2 (proj2 (proj2 (proj2
           (proj2 (X12_dialog_dials_only_checked_addresses unit unit
                     (LegionHUD.onChangeIp LegionHUD.initial "10.0.0.1")
                     (create "node") true _ _ _ _ eq_refl)
                  eq_refl)))))).
Defined.

(** X13.  Starting as commander cannot fail.  Whatever the state of the
    dialog and of the service, [startAsLegatus] calls
    [onConnected('LEGATUS')]: its [catch] branch is never taken, the dialog
    is left with the commander role and in its connecting state with the
    error it had, and the service has the commander role and a heartbeat
    interval, creates no socket and keeps the socket it had. *)
Theorem X13_commander_start_cannot_fail :
  forall (MsgCb TelCb : Type) (h : LegionHUD.State) (s : State MsgCb TelCb)
         (ctorOk : bool),
    exists s' es,
      LegionHUD.startAsLegatus h s ctorOk
      = (LegionHUD.mkHud (Some LEGATUS) (LegionHUD.protocol h)
                         (LegionHUD.ipAddress h) true (LegionHUD.error h),
         s', es, Some LEGATUS)
      /\ role s' = Some LEGATUS
      /\ protocol s' = LegionHUD.protocol h
      /\ Traces.isSome (heartbeatInterval s') = true
      /\ socket s' = socket s
      /\ forall v, ~ In (NewWebSocket v) es.
Proof.
  intros MsgCb TelCb h s ctorOk.
  unfold LegionHUD.startAsLegatus, initialize, stopHeartbeat, startHeartbeat.
  destruct s as [sk rl pr did off mcb tcb [i|] devs]; simpl;
    eexists; eexists; (split; [reflexivity|]); simpl; repeat split;
    intros v Hv; repeat (destruct Hv as [Hv|Hv]; try discriminate Hv);
    contradiction.
Qed.
